(** * Markdown Furigana Plus: the annotation matcher of [src/main.ts]

    A shallow embedding of [bodyToRegex], [matchFurigana], [cleanFurigana],
    [rubifyEveryCharacter], the [FuriganaOptions] constructor and [furigana],
    followed by the properties of the specification that concern them.

    JavaScript strings are sequences of UTF-16 code units; a code unit is a
    [Z] in [0, 65535].  The regular expressions of the program are kept as
    the source text the program builds and are then parsed, as
    [new RegExp] does, into the terms the backtracking matcher runs. *)

From Stdlib Require Import ZArith List Bool Lia String Ascii.
Import ListNotations.

Local Open Scope Z_scope.

(* ================================================================== *)
(** ** JavaScript values used by the program *)

Definition CodeUnit := Z.
Definition JsString := list CodeUnit.

(** An ASCII literal of the source as a sequence of code units. *)
Definition js (s : string) : JsString :=
  List.map (fun a => Z.of_nat (nat_of_ascii a)) (list_ascii_of_string s).

(** Values a variable of the program can hold: a string, [undefined]
    (an array read past the end), or [NaN] ([undefined + undefined]). *)
Inductive JsVal : Type :=
| JUndefined
| JNaN
| JStr (s : JsString).

Definition ToString (v : JsVal) : JsString :=
  match v with
  | JUndefined => js "undefined"
  | JNaN => js "NaN"
  | JStr s => s
  end.

(** The [+] of [a += b]: string concatenation as soon as one operand is a
    string, numeric addition (here always [NaN]) otherwise. *)
Definition jsAdd (a b : JsVal) : JsVal :=
  match a, b with
  | JStr x, _ => JStr (x ++ ToString b)
  | _, JStr y => JStr (ToString a ++ y)
  | _, _ => JNaN
  end.

(** [v === s] for a string [s]. *)
Fixpoint JsString_eqb (a b : JsString) : bool :=
  match a, b with
  | [], [] => true
  | x :: a', y :: b' => (x =? y) && JsString_eqb a' b'
  | _, _ => false
  end.

Definition strictEqStr (v : JsVal) (s : JsString) : bool :=
  match v with
  | JStr x => JsString_eqb x s
  | _ => false
  end.

(** [s.slice(1)]. *)
Definition slice1 (s : JsString) : JsString := List.tl s.

(** [arr[i]]: [undefined] past the end. *)
Definition index (arr : list JsString) (i : nat) : JsVal :=
  match nth_error arr i with
  | Some s => JStr s
  | None => JUndefined
  end.

(** Outcome of a call: a value, or a [SyntaxError] thrown by [new RegExp]. *)
Inductive Completion (A : Type) : Type :=
| Normal (v : A)
| ThrowSyntaxError.
Arguments Normal {A} v.
Arguments ThrowSyntaxError {A}.

(* ================================================================== *)
(** ** Character classes *)

Definition inRange (lo hi c : CodeUnit) : bool := (lo <=? c) && (c <=? hi).

(** [kanaRegex]: the class of U+3040-U+3096, U+30A1-U+30FA, U+FF66-U+FF9F
    and U+30FC, tested on a string of one code unit. *)
Definition kanaRegex_test (c : CodeUnit) : bool :=
  inRange 0x3040 0x3096 c || inRange 0x30a1 0x30fa c
  || inRange 0xff66 0xff9f c || (c =? 0x30fc).

(** [kanjiRegex]: the class of U+3400-U+9FAF. *)
Definition kanjiRegex_test (c : CodeUnit) : bool := inRange 0x3400 0x9faf c.

(** The class escape [\s]: WhiteSpace and LineTerminator code points. *)
Definition isWhiteSpace (c : CodeUnit) : bool :=
  inRange 0x0009 0x000d c || (c =? 0x0020) || (c =? 0x00a0) || (c =? 0x1680)
  || inRange 0x2000 0x200a c || (c =? 0x2028) || (c =? 0x2029)
  || (c =? 0x202f) || (c =? 0x205f) || (c =? 0x3000) || (c =? 0xfeff).

Definition cPlus : CodeUnit := 0x2b.   (* + *)
Definition cDot : CodeUnit := 0x2e.    (* . *)

Definition isPlusOrDot (c : CodeUnit) : bool := (c =? cPlus) || (c =? cDot).
Definition isDot (c : CodeUnit) : bool := c =? cDot.
Definition notPlusOrDot (c : CodeUnit) : bool := negb (isPlusOrDot c).

(* ================================================================== *)
(** ** The patterns [bodyToRegex] builds, and the matcher that runs them *)

(** The pieces of pattern text of [bodyToRegex]. *)
Definition combinatorOrSeparatorGroup : JsString := js "([+.]?)".
Definition combinatorOrSeparator : JsString := js "[+.]?".
Definition combinatorOnly : JsString := js "\.?".
Definition furiganaGroup : JsString := js "([^+.]+)".

(** Terms of a parsed pattern.  [new RegExp] is modelled on the fragment of
    the pattern grammar the program generates: the two assertions, the four
    pieces above, and a pattern character standing for itself. *)
Inductive RegexPart : Type :=
| PStart                (* ^        *)
| PEnd                  (* $        *)
| PSepGroup             (* ([+.]?)  *)
| PSep                  (* [+.]?    *)
| PDot                  (* \.?      *)
| PFurigana             (* ([^+.]+) *)
| PChar (c : CodeUnit). (* c        *)

Definition RegExp := list RegexPart.

(** SyntaxCharacter of the pattern grammar: never a pattern character. *)
Definition isSyntaxCharacter (c : CodeUnit) : bool :=
  existsb (Z.eqb c) (js "^$\.*+?()[]{}|").

Fixpoint stripPrefix (p s : JsString) : option JsString :=
  match p with
  | [] => Some s
  | x :: p' =>
      match s with
      | y :: s' => if x =? y then stripPrefix p' s' else None
      | [] => None
      end
  end.

(** One term at the head of the pattern text, and the text after it. *)
Definition nextPart (src : JsString) : option (RegexPart * JsString) :=
  match stripPrefix combinatorOrSeparatorGroup src with
  | Some r => Some (PSepGroup, r)
  | None =>
  match stripPrefix furiganaGroup src with
  | Some r => Some (PFurigana, r)
  | None =>
  match stripPrefix combinatorOrSeparator src with
  | Some r => Some (PSep, r)
  | None =>
  match stripPrefix combinatorOnly src with
  | Some r => Some (PDot, r)
  | None =>
  match src with
  | [] => None
  | c :: r =>
      if c =? 0x5e then Some (PStart, r)
      else if c =? 0x24 then Some (PEnd, r)
      else if isSyntaxCharacter c then None
      else Some (PChar c, r)
  end end end end end.

Fixpoint parsePattern (fuel : nat) (src : JsString) : option RegExp :=
  match src with
  | [] => Some []
  | _ :: _ =>
      match fuel with
      | O => None
      | S fuel' =>
          match nextPart src with
          | Some (p, r) =>
              match parsePattern fuel' r with
              | Some ps => Some (p :: ps)
              | None => None
              end
          | None => None
          end
      end
  end.

(** [new RegExp(src)]: every term takes at least one code unit of text, so
    the length of the text is fuel enough. *)
Definition RegExp_new (src : JsString) : Completion RegExp :=
  match parsePattern (List.length src) src with
  | Some ps => Normal ps
  | None => ThrowSyntaxError
  end.

(** The matcher, in the continuation style of the language definition: a
    continuation receives the end index reached, the input left and the
    captures made so far (in order of their groups, all of which lie on the
    one path through the pattern) and answers with the final state or with
    a failure that makes the caller backtrack. *)
Definition Captures := list JsString.
Definition MatchResult := option (nat * Captures).
Definition Continuation := nat -> JsString -> Captures -> MatchResult.

(** [x?] for a character class [x], greedy; [capture] for [(x?)]. *)
Definition optionalClass (cls : CodeUnit -> bool) (capture : bool)
  (k : Continuation) : Continuation :=
  fun pos s caps =>
    let skip := k pos s (if capture then caps ++ [[]] else caps) in
    match s with
    | c :: s' =>
        if cls c then
          match k (S pos) s' (if capture then caps ++ [[c]] else caps) with
          | Some r => Some r
          | None => skip
          end
        else skip
    | [] => skip
    end.

(** [(x+)] for a character class [x], greedy: take one more code unit while
    that leads to a match, else stop here if at least one was taken. *)
Fixpoint repeatClass (cls : CodeUnit -> bool) (k : Continuation)
  (acc : JsString) (pos : nat) (s : JsString) (caps : Captures) : MatchResult :=
  let stop := match acc with
              | [] => None
              | _ :: _ => k pos s (caps ++ [acc])
              end in
  match s with
  | c :: s' =>
      if cls c then
        match repeatClass cls k (acc ++ [c]) (S pos) s' caps with
        | Some r => Some r
        | None => stop
        end
      else stop
  | [] => stop
  end.

Fixpoint matchParts (re : RegExp) : Continuation :=
  match re with
  | [] => fun pos _ caps => Some (pos, caps)
  | p :: rest =>
      let k := matchParts rest in
      match p with
      | PStart => fun pos s caps =>
          match pos with O => k pos s caps | S _ => None end
      | PEnd => fun pos s caps =>
          match s with [] => k pos s caps | _ :: _ => None end
      | PSepGroup => optionalClass isPlusOrDot true k
      | PSep => optionalClass isPlusOrDot false k
      | PDot => optionalClass isDot false k
      | PFurigana => repeatClass notPlusOrDot k []
      | PChar c => fun pos s caps =>
          match s with
          | d :: s' => if d =? c then k (S pos) s' caps else None
          | [] => None
          end
      end
  end.

(** [re.exec(input)] for a pattern without flags: the match is tried at
    index 0, 1, ... until one succeeds; the array holds the matched text
    and then the captures. *)
Fixpoint execFrom (re : RegExp) (pos : nat) (rest : JsString)
  : option (list JsString) :=
  match matchParts re pos rest [] with
  | Some (e, caps) => Some (firstn (e - pos) rest :: caps)
  | None =>
      match rest with
      | [] => None
      | _ :: rest' => execFrom re (S pos) rest'
      end
  end.

Definition exec (re : RegExp) (input : JsString) : option (list JsString) :=
  execFrom re 0%nat input.

(* ================================================================== *)
(** ** [bodyToRegex] *)

Inductive CharType : Type := other | kanji | kana.

Definition CharType_eqb (a b : CharType) : bool :=
  match a, b with
  | other, other | kanji, kanji | kana, kana => true
  | _, _ => false
  end.

(** The [for] loop of [bodyToRegex] over the code units left, with its two
    variables. *)
Fixpoint bodyToRegex_loop (body : JsString) (regexStr : JsString)
  (lastType : CharType) : JsString :=
  match body with
  | [] => regexStr
  | c :: body' =>
      if kanjiRegex_test c then
        let regexStr :=
          if CharType_eqb lastType kanji then
            regexStr ++ combinatorOrSeparatorGroup
          else if CharType_eqb lastType kana then
            regexStr ++ combinatorOrSeparator
          else regexStr in
        bodyToRegex_loop body' (regexStr ++ furiganaGroup) kanji
      else if kanaRegex_test c then
        let regexStr :=
          if CharType_eqb lastType kanji then
            regexStr ++ combinatorOrSeparator
          else regexStr in
        bodyToRegex_loop body' (regexStr ++ [c]) kana
      else
        let regexStr :=
          if negb (CharType_eqb lastType other) then
            regexStr ++ combinatorOnly
          else regexStr in
        bodyToRegex_loop body' regexStr other
  end.

(** [null] is [None]. *)
Definition bodyToRegex (body : JsString) : Completion (option RegExp) :=
  let regexStr := bodyToRegex_loop body (js "^") other in
  if JsString_eqb regexStr [] then Normal None
  else
    match RegExp_new (regexStr ++ js "$") with
    | Normal re => Normal (Some re)
    | ThrowSyntaxError => ThrowSyntaxError
    end.

(* ================================================================== *)
(** ** [FuriganaOptions] and [cleanFurigana] *)

(** The two patterns of the options are one character class each, with the
    global flag.  A member of such a class is [\s] or a single character. *)
Inductive ClassAtom : Type :=
| ClassWhiteSpace
| ClassChar (c : CodeUnit).

Definition ClassRegExp := list ClassAtom.

Definition ClassAtom_test (a : ClassAtom) (c : CodeUnit) : bool :=
  match a with
  | ClassWhiteSpace => isWhiteSpace c
  | ClassChar d => c =? d
  end.

Definition ClassRegExp_test (re : ClassRegExp) (c : CodeUnit) : bool :=
  existsb (fun a => ClassAtom_test a c) re.

(** The text between the brackets of a class: [\s], a backslash followed by
    the character it escapes, or a character.  (The texts built below hold
    no unescaped [-] or [\] and do not start with [^].) *)
Fixpoint parseClassBody (src : JsString) : ClassRegExp :=
  match src with
  | [] => []
  | c :: r =>
      if c =? 0x5c then
        match r with
        | d :: r' =>
            (if d =? 0x73 then ClassWhiteSpace else ClassChar d)
              :: parseClassBody r'
        | [] => []
        end
      else ClassChar c :: parseClassBody r
  end.

(** [s.replace(re, by)] for a global one-class pattern [re] and a
    replacement text without [$]. *)
Definition replaceAll (re : ClassRegExp) (by_ : JsString) (s : JsString)
  : JsString :=
  flat_map (fun c => if ClassRegExp_test re c then by_ else [c]) s.

(** [s.replace(/([\-\]\\])/g, "\\$1")]. *)
Definition escapeClassChars (s : JsString) : JsString :=
  flat_map (fun c =>
    if (c =? 0x2d) || (c =? 0x5d) || (c =? 0x5c) then [0x5c; c] else [c]) s.

Record FuriganaOptions : Type := {
  fallbackParens : JsString;
  extraSeparators : JsString;
  extraCombinators : JsString;
  separatorRegex : ClassRegExp;
  combinatorRegex : ClassRegExp
}.

(** [new FuriganaOptions()].  The constructor takes no argument: the extra
    separators are the escaped empty string, the extra combinators the
    escaped [this.extraCombinators || ""] of a field not yet set. *)
Definition new_FuriganaOptions : FuriganaOptions :=
  let fallbackParens := [0x3010; 0x3011] in
  let extraSeparators := escapeClassChars [] in
  let extraCombinators := escapeClassChars [] in
  {| fallbackParens := fallbackParens;
     extraSeparators := extraSeparators;
     extraCombinators := extraCombinators;
     separatorRegex :=
       parseClassBody
         (js "\s." ++ [0xff0e; 0x3002; 0x30fb] ++ js "|" ++ [0xff5c]
          ++ js "/" ++ [0xff0f] ++ extraSeparators);
     combinatorRegex :=
       parseClassBody (js "+" ++ [0xff0b] ++ extraCombinators) |}.

Definition cleanFurigana (furigana : JsString) (options : FuriganaOptions)
  : JsString :=
  let furigana := replaceAll (separatorRegex options) (js ".") furigana in
  let furigana := replaceAll (combinatorRegex options) (js "+") furigana in
  furigana.

(* ================================================================== *)
(** ** [matchFurigana] *)

Definition Pair : Type := JsString * JsVal.

Record LoopState : Type := {
  result : list Pair;
  curBodyPart : JsString;
  curToptextPart : JsVal;
  matchIndex : nat;
  lastType : CharType
}.

(** One turn of the [for] loop of [matchFurigana] on the code unit [c]. *)
Definition matchFurigana_step (m : list JsString) (c : CodeUnit)
  (st : LoopState) : LoopState :=
  if kanjiRegex_test c then
    if CharType_eqb (lastType st) kana || CharType_eqb (lastType st) other then
      {| result := if negb (JsString_eqb (curBodyPart st) [])
                   then result st ++ [(curBodyPart st, curToptextPart st)]
                   else result st;
         curBodyPart := [c];
         curToptextPart := index m (matchIndex st);
         matchIndex := S (matchIndex st);
         lastType := kanji |}
    else
      let connection := index m (matchIndex st) in
      if strictEqStr connection (js "+") || strictEqStr connection [] then
        {| result := result st;
           curBodyPart := curBodyPart st ++ [c];
           curToptextPart :=
             jsAdd (curToptextPart st) (index m (S (matchIndex st)));
           matchIndex := S (S (matchIndex st));
           lastType := lastType st |}
      else
        {| result := result st ++ [(curBodyPart st, curToptextPart st)];
           curBodyPart := [c];
           curToptextPart := index m (S (matchIndex st));
           matchIndex := S (S (matchIndex st));
           lastType := lastType st |}
  else
    if negb (CharType_eqb (lastType st) kanji) then
      {| result := result st;
         curBodyPart := curBodyPart st ++ [c];
         curToptextPart := curToptextPart st;
         matchIndex := matchIndex st;
         lastType := lastType st |}
    else
      {| result := result st ++ [(curBodyPart st, curToptextPart st)];
         curBodyPart := [c];
         curToptextPart := JStr [];
         matchIndex := matchIndex st;
         lastType := if kanaRegex_test c then kana else other |}.

Fixpoint matchFurigana_loop (m : list JsString) (body : JsString)
  (st : LoopState) : LoopState :=
  match body with
  | [] => st
  | c :: body' => matchFurigana_loop m body' (matchFurigana_step m c st)
  end.

(** [/^[=＝]/.test(toptext)]. *)
Definition disabledRegex_test (toptext : JsString) : bool :=
  match toptext with
  | c :: _ => (c =? 0x3d) || (c =? 0xff1d)
  | [] => false
  end.

Definition matchFurigana (body toptext : JsString) (options : FuriganaOptions)
  : Completion (list Pair) :=
  if disabledRegex_test toptext then
    Normal [(body, JStr (slice1 toptext))]
  else
    match bodyToRegex body with
    | ThrowSyntaxError => ThrowSyntaxError
    | Normal None => Normal [(body, JStr toptext)]
    | Normal (Some bodyRegex) =>
        match exec bodyRegex (cleanFurigana toptext options) with
        | None => Normal [(body, JStr toptext)]
        | Some m =>
            let st := matchFurigana_loop m body
                        {| result := [];
                           curBodyPart := [];
                           curToptextPart := JStr [];
                           matchIndex := 1;
                           lastType := other |} in
            Normal (result st ++ [(curBodyPart st, curToptextPart st)])
        end
    end.

(* ================================================================== *)
(** ** [rubifyEveryCharacter] and [furigana] *)

Definition isHighSurrogate (c : CodeUnit) : bool := inRange 0xd800 0xdbff c.
Definition isLowSurrogate (c : CodeUnit) : bool := inRange 0xdc00 0xdfff c.

(** The values [for (let c of body)] binds [c] to: the code points of the
    string, a well-formed surrogate pair being one of them.  (Compiled for
    an engine without iterators the loop visits code units instead; the two
    agree on a body without surrogates, see [stringIterator_bmp].) *)
Fixpoint stringIterator (s : JsString) : list JsString :=
  match s with
  | [] => []
  | c :: s' =>
      match s' with
      | d :: s'' =>
          if isHighSurrogate c && isLowSurrogate d
          then [c; d] :: stringIterator s''
          else [c] :: stringIterator s'
      | [] => [[c]]
      end
  end.

Definition rubifyEveryCharacter (body toptext : JsString) : list Pair :=
  let topmark := slice1 toptext in
  let topmark := if JsString_eqb topmark [] then [0x25cf] else topmark in
  List.map (fun c => (c, JStr topmark)) (stringIterator body).

(** [/^[*＊].?/.test(toptext)]: the optional [.?] after the asterisk
    matches one code unit that is not a line terminator, or nothing. *)
Definition isLineTerminator (c : CodeUnit) : bool :=
  (c =? 0x0a) || (c =? 0x0d) || (c =? 0x2028) || (c =? 0x2029).

Definition emphasisDotsIndicatorRegex_test (toptext : JsString) : bool :=
  match toptext with
  | c :: rest =>
      ((c =? 0x2a) || (c =? 0xff0a))
      && match rest with
         | d :: _ => negb (isLineTerminator d) || true
         | [] => true
         end
  | [] => false
  end.

Definition furigana (body toptext : JsString) (options : FuriganaOptions)
  : Completion (list Pair) :=
  if emphasisDotsIndicatorRegex_test toptext then
    Normal (rubifyEveryCharacter body toptext)
  else
    matchFurigana body toptext options.

(** [furigana(body, toptext)] with the default third argument. *)
Definition furigana_default (body toptext : JsString) : Completion (list Pair) :=
  furigana body toptext new_FuriganaOptions.

(* ================================================================== *)
(** * Vocabulary of the proofs *)

(** The pattern text of a term, and of a pattern. *)
Definition renderPart (p : RegexPart) : JsString :=
  match p with
  | PStart => js "^"
  | PEnd => js "$"
  | PSepGroup => combinatorOrSeparatorGroup
  | PSep => combinatorOrSeparator
  | PDot => combinatorOnly
  | PFurigana => furiganaGroup
  | PChar c => [c]
  end.

Definition render (ps : RegExp) : JsString := flat_map renderPart ps.

(** The terms of the pattern text the loop appends for the rest of a body. *)
Fixpoint bodyParts (lastType : CharType) (body : JsString) : RegExp :=
  match body with
  | [] => []
  | c :: body' =>
      if kanjiRegex_test c then
        (if CharType_eqb lastType kanji then [PSepGroup]
         else if CharType_eqb lastType kana then [PSep] else [])
        ++ PFurigana :: bodyParts kanji body'
      else if kanaRegex_test c then
        (if CharType_eqb lastType kanji then [PSep] else [])
        ++ PChar c :: bodyParts kana body'
      else
        (if negb (CharType_eqb lastType other) then [PDot] else [])
        ++ bodyParts other body'
  end.

(** The only pattern characters the loop writes are phonetic ones. *)
Definition literalOK (p : RegexPart) : Prop :=
  match p with
  | PChar c => kanaRegex_test c = true
  | _ => True
  end.

(** The pattern [bodyToRegex] returns for a body (see [bodyToRegex_value]). *)
Definition bodyRegex (body : JsString) : RegExp :=
  PStart :: bodyParts other body ++ [PEnd].

(** The text covered so far: the pairs pushed and the pair being built. *)
Definition bases (st : LoopState) : JsString :=
  List.concat (List.map fst (result st)) ++ curBodyPart st.

(** The capturing groups of a pattern, in order: a boundary mark or a
    reading. *)
Inductive GroupKind : Type := GSep | GFuri.

Definition groupsOf (re : RegExp) : list GroupKind :=
  flat_map (fun p => match p with
                     | PSepGroup => [GSep]
                     | PFurigana => [GFuri]
                     | _ => []
                     end) re.

(** A reading segment: not empty, free of the two canonical marks. *)
Definition furiganaText (s : JsString) : Prop :=
  s <> [] /\ Forall (fun c => notPlusOrDot c = true) s.

(** What a group of each kind can capture. *)
Definition capOK (g : GroupKind) (s : JsString) : Prop :=
  match g with
  | GSep => s = [] \/ s = [cPlus] \/ s = [cDot]
  | GFuri => furiganaText s
  end.

(** The groups of the pattern of a body, read off the body itself; only
    whether the previous character was logographic matters. *)
Fixpoint bodyGroups (afterKanji : bool) (body : JsString) : list GroupKind :=
  match body with
  | [] => []
  | c :: body' =>
      if kanjiRegex_test c then
        (if afterKanji then [GSep; GFuri] else [GFuri]) ++ bodyGroups true body'
      else bodyGroups false body'
  end.

(** A pair whose reading segment is a string and, when the base segment
    starts with a logographic character, a reading segment proper. *)
Definition goodPair (p : Pair) : Prop :=
  exists s, snd p = JStr s
    /\ forall c rest, fst p = c :: rest -> kanjiRegex_test c = true ->
         furiganaText s.

(** The invariant of the loop of [matchFurigana]: the pairs pushed and the
    pair being built are good, and the pair being built starts with a
    logographic character exactly when the last character was one. *)
Record StateOK (st : LoopState) : Prop := {
  ok_result : Forall goodPair (result st);
  ok_current : goodPair (curBodyPart st, curToptextPart st);
  ok_kanji : lastType st = kanji ->
             exists c rest, curBodyPart st = c :: rest
                            /\ kanjiRegex_test c = true;
  ok_other : lastType st <> kanji ->
             forall c rest, curBodyPart st = c :: rest ->
                            kanjiRegex_test c = false
}.

(** The captures still to be read are those of the groups still to come. *)
Definition InStep (m : list JsString) (body : JsString) (st : LoopState) : Prop :=
  Forall2 capOK (bodyGroups (CharType_eqb (lastType st) kanji) body)
          (skipn (matchIndex st) m).

(** The variables of [matchFurigana] on entry to its loop. *)
Definition initialState : LoopState :=
  {| result := [];
     curBodyPart := [];
     curToptextPart := JStr [];
     matchIndex := 1;
     lastType := other |}.

(** The pairs of a successful match. *)
Definition matchedPairs (m : list JsString) (body : JsString) : list Pair :=
  let st := matchFurigana_loop m body initialState in
  result st ++ [(curBodyPart st, curToptextPart st)].

(** What [cleanFurigana] makes of one code unit. *)
Definition cleanChar (options : FuriganaOptions) (c : CodeUnit) : CodeUnit :=
  let c1 := if ClassRegExp_test (separatorRegex options) c then cDot else c in
  if ClassRegExp_test (combinatorRegex options) c1 then cPlus else c1.

(** Every [_] of a reading turned into the canonical separator. *)
Definition cUnderscore : CodeUnit := 0x5f.

Definition underscoresToDots (reading : JsString) : JsString :=
  List.map (fun c => if c =? cUnderscore then cDot else c) reading.

(** Options whose separators are the built-in ones and [_], and whose
    combinators are the built-in ones. *)
Definition separatesAtUnderscore (options : FuriganaOptions) : Prop :=
  (forall c, ClassRegExp_test (separatorRegex options) c
             = ClassRegExp_test (separatorRegex new_FuriganaOptions) c
               || (c =? cUnderscore))
  /\ (forall c, ClassRegExp_test (combinatorRegex options) c
                = ClassRegExp_test (combinatorRegex new_FuriganaOptions) c).

(** The inputs of the examples of the specification. *)
Module Examples.
(* U+53EF U+611B U+3044 U+72AC *)
Definition kawaii_inu : JsString := [0x53ef; 0x611b; 0x3044; 0x72ac].
(* ka, middle dot, wa i, middle dot, i, middle dot, i nu *)
Definition ka_wai_i_inu : JsString :=
  [0x304b; 0x30fb; 0x308f; 0x3044; 0x30fb; 0x3044; 0x30fb; 0x3044; 0x306c].
(* U+98DF U+3079 U+308B *)
Definition taberu : JsString := [0x98df; 0x3079; 0x308b].
Definition ta_be_be : JsString := [0x305f; 0x3079; 0x3079].
Definition eq_ta_be_ru : JsString := [0xff1d; 0x305f; 0x3079; 0x308b].
Definition ta_be_ru : JsString := [0x305f; 0x3079; 0x308b].
(* U+3060 U+304B U+3089 *)
Definition dakara : JsString := [0x3060; 0x304b; 0x3089].
Definition ka : JsString := [0x304b].
Definition wai : JsString := [0x308f; 0x3044].
Definition i : JsString := [0x3044].
Definition inu : JsString := [0x3044; 0x306c].
(** Options with [_] among the separators, as the class
    [[\s.．。・|｜/／_]] gives them. *)
Definition underscoreOptions : FuriganaOptions :=
  {| fallbackParens := fallbackParens new_FuriganaOptions;
     extraSeparators := [cUnderscore];
     extraCombinators := [];
     separatorRegex :=
       separatorRegex new_FuriganaOptions ++ [ClassChar cUnderscore];
     combinatorRegex := combinatorRegex new_FuriganaOptions |}.
(** Options with [+] among the separators. *)
Definition plusSeparatorOptions : FuriganaOptions :=
  {| fallbackParens := fallbackParens new_FuriganaOptions;
     extraSeparators := [cPlus];
     extraCombinators := [];
     separatorRegex := separatorRegex new_FuriganaOptions ++ [ClassChar cPlus];
     combinatorRegex := combinatorRegex new_FuriganaOptions |}.
End Examples.

(** Base segments of one kind: logographic characters only, or none. *)
Definition allKanji (b : JsString) : Prop :=
  Forall (fun c => kanjiRegex_test c = true) b.

Definition noKanji (b : JsString) : Prop :=
  Forall (fun c => kanjiRegex_test c = false) b.

(** A pair of a match: a run of logographic characters, or a run without
    any and without a reading. *)
Definition uniformPair (p : Pair) : Prop :=
  fst p <> []
  /\ (allKanji (fst p) \/ (noKanji (fst p) /\ snd p = JStr [])).

(** What the loop of [matchFurigana] keeps whatever the captures are. *)
Record Uniform (st : LoopState) : Prop := {
  u_result : Forall uniformPair (result st);
  u_kanji : lastType st = kanji ->
            curBodyPart st <> [] /\ allKanji (curBodyPart st);
  u_other : lastType st <> kanji ->
            noKanji (curBodyPart st) /\ curToptextPart st = JStr []
}.

(** The texts a pattern can match, with the captures of its groups: the
    declarative reading of the seven terms.  ([^] is checked against the
    index by the matcher; after [$] nothing more is taken.) *)
Inductive Parses : RegExp -> JsString -> Captures -> Prop :=
| Parses_nil : Parses [] [] []
| Parses_start re s caps :
    Parses re s caps -> Parses (PStart :: re) s caps
| Parses_end re caps :
    Parses re [] caps -> Parses (PEnd :: re) [] caps
| Parses_sepGroup re x s caps :
    x = [] \/ x = [cPlus] \/ x = [cDot] ->
    Parses re s caps -> Parses (PSepGroup :: re) (x ++ s) (x :: caps)
| Parses_sep re x s caps :
    x = [] \/ x = [cPlus] \/ x = [cDot] ->
    Parses re s caps -> Parses (PSep :: re) (x ++ s) caps
| Parses_dot re x s caps :
    x = [] \/ x = [cDot] ->
    Parses re s caps -> Parses (PDot :: re) (x ++ s) caps
| Parses_furigana re x s caps :
    furiganaText x ->
    Parses re s caps -> Parses (PFurigana :: re) (x ++ s) (x :: caps)
| Parses_char re c s caps :
    Parses re s caps -> Parses (PChar c :: re) (c :: s) caps.

(** The reading a body spells, given the captures of its pattern: the
    capture of each logographic character and each phonetic character
    itself.  After a logographic character the capture of the boundary
    group comes first and is passed over. *)
Fixpoint readingText (afterKanji : bool) (body : JsString) (caps : Captures)
  : JsString :=
  match body with
  | [] => []
  | c :: body' =>
      if kanjiRegex_test c then
        match (if afterKanji then List.tl caps else caps) with
        | x :: caps' => x ++ readingText true body' caps'
        | [] => []
        end
      else
        (if kanaRegex_test c then [c] else []) ++ readingText false body' caps
  end.

(** What a pair says of the reading: its reading segment when its base
    segment starts with a logographic character, the phonetic characters of
    its base segment otherwise. *)
Definition spellPair (p : Pair) : JsString :=
  match fst p with
  | c :: _ =>
      if kanjiRegex_test c then ToString (snd p)
      else List.filter kanaRegex_test (fst p)
  | [] => []
  end.

(** The text read so far by the loop of [matchFurigana]. *)
Definition spelled (st : LoopState) : JsString :=
  List.concat (List.map spellPair (result st))
  ++ spellPair (curBodyPart st, curToptextPart st).

(** A logographic character after the first, with the mark written before
    its reading and that reading. *)
Record Segment : Type := {
  seg_kanji : CodeUnit;
  seg_mark : CodeUnit;
  seg_reading : JsString
}.

(** A reading with a mark between the readings of all the characters. *)
Definition markedText (r1 : JsString) (l : list Segment) : JsString :=
  r1 ++ flat_map (fun e => seg_mark e :: seg_reading e) l.

(** The pairs such a reading stands for: [+] joins a character to the pair
    before it, any other mark starts a new pair. *)
Fixpoint markedPairs (b r : JsString) (l : list Segment) : list Pair :=
  match l with
  | [] => [(b, JStr r)]
  | e :: l' =>
      if seg_mark e =? cPlus
      then markedPairs (b ++ [seg_kanji e]) (r ++ seg_reading e) l'
      else (b, JStr r) :: markedPairs [seg_kanji e] (seg_reading e) l'
  end.

Definition goodSegment (e : Segment) : Prop :=
  kanjiRegex_test (seg_kanji e) = true
  /\ (seg_mark e = cPlus \/ seg_mark e = cDot)
  /\ furiganaText (seg_reading e).

(** Whether the base segment of a pair starts with a logographic
    character. *)
Definition kanjiStart (p : Pair) : bool :=
  match fst p with
  | c :: _ => kanjiRegex_test c
  | [] => false
  end.

(** No two neighbours in the list are both without a logographic start. *)
Fixpoint noAdjacentPlain (l : list Pair) : Prop :=
  match l with
  | [] => True
  | p :: t =>
      match t with
      | [] => True
      | q :: _ => kanjiStart p || kanjiStart q = true /\ noAdjacentPlain t
      end
  end.

(** What the loop of [matchFurigana] keeps of the pairs pushed and the pair
    being built, taken together. *)
Record Alternating (st : LoopState) : Prop := {
  alt_pairs : noAdjacentPlain
                (result st ++ [(curBodyPart st, curToptextPart st)]);
  alt_kanji : lastType st = kanji ->
              kanjiStart (curBodyPart st, curToptextPart st) = true;
  alt_other : lastType st <> kanji ->
              kanjiStart (curBodyPart st, curToptextPart st) = false;
  alt_first : curBodyPart st = [] -> result st = []
}.

(** The characters of a string, said without iterating over it: a list of
    pieces is the list of its characters when the pieces put together are
    the string, each piece is one code unit or a high surrogate followed by
    a low one, and no such pair is cut in two (a piece that is a lone high
    surrogate is not followed by a piece that starts with a low one).
    [charactersOf_unique] shows that a string has one such list only. *)
Definition isCodePoint (ch : JsString) : Prop :=
  (exists u, ch = [u])
  \/ (exists h l, ch = [h; l]
                  /\ isHighSurrogate h = true /\ isLowSurrogate l = true).

Definition splitsPair (ch next : JsString) : bool :=
  match ch, next with
  | [h], l :: _ => isHighSurrogate h && isLowSurrogate l
  | _, _ => false
  end.

Fixpoint noSplitPair (chars : list JsString) : Prop :=
  match chars with
  | [] => True
  | ch :: rest =>
      match rest with
      | [] => True
      | next :: _ => splitsPair ch next = false
      end
      /\ noSplitPair rest
  end.

Definition charactersOf (s : JsString) (chars : list JsString) : Prop :=
  List.concat chars = s /\ Forall isCodePoint chars /\ noSplitPair chars.

(* ================================================================== *)
(** * Properties *)

(** ** Strings *)

Lemma JsString_eqb_eq (a b : JsString) : JsString_eqb a b = true <-> a = b.
Proof.
  revert b; induction a as [|x a IH]; intros [|y b]; simpl;
    try (split; [discriminate | intros H; discriminate H]).
  - split; reflexivity.
  - rewrite andb_true_iff, Z.eqb_eq, IH.
    split; [intros [-> ->]; reflexivity | intros H; inversion H; auto].
Qed.

Lemma JsString_eqb_nil (a : JsString) :
  JsString_eqb a [] = match a with [] => true | _ :: _ => false end.
Proof. destruct a; reflexivity. Qed.

Lemma stringIterator_two (s : JsString) :
  List.concat (stringIterator s) = s
  /\ forall c, List.concat (stringIterator (c :: s)) = c :: s.
Proof.
  induction s as [|d s [IH1 IH2]].
  - split; [reflexivity | intros c; reflexivity].
  - split; [apply IH2 |].
    intros c. change (stringIterator (c :: d :: s))
      with (if isHighSurrogate c && isLowSurrogate d
            then [c; d] :: stringIterator s
            else [c] :: stringIterator (d :: s)).
    destruct (isHighSurrogate c && isLowSurrogate d); cbn [List.concat app].
    + now rewrite IH1.
    + now rewrite (IH2 d).
Qed.

Lemma stringIterator_concat (s : JsString) : List.concat (stringIterator s) = s.
Proof. apply stringIterator_two. Qed.

(** On a body without high surrogates the iteration is by code unit. *)
Lemma stringIterator_bmp (s : JsString) :
  (forall u, In u s -> isHighSurrogate u = false) ->
  stringIterator s = List.map (fun u => [u]) s.
Proof.
  induction s as [|c s IH]; intros H; [reflexivity|].
  destruct s as [|d s]; [reflexivity|].
  change (stringIterator (c :: d :: s))
    with (if isHighSurrogate c && isLowSurrogate d
          then [c; d] :: stringIterator s
          else [c] :: stringIterator (d :: s)).
  rewrite (H c (or_introl eq_refl)). simpl andb. cbv iota.
  rewrite IH; [reflexivity|]. intros u Hu. apply H. now right.
Qed.

(* ------------------------------------------------------------------ *)
(** ** [new RegExp] accepts every pattern text [bodyToRegex] builds *)

Lemma render_app (a b : RegExp) : render (a ++ b) = render a ++ render b.
Proof. apply flat_map_app. Qed.

Lemma bodyToRegex_loop_render (body : JsString) :
  forall regexStr lastType,
    bodyToRegex_loop body regexStr lastType
    = regexStr ++ render (bodyParts lastType body).
Proof.
  induction body as [|c body IH]; intros regexStr lt; simpl.
  - now rewrite app_nil_r.
  - destruct (kanjiRegex_test c); [|destruct (kanaRegex_test c)];
      rewrite IH, render_app; destruct lt; simpl;
      rewrite <- ?app_assoc; simpl; rewrite ?app_nil_r; reflexivity.
Qed.

Lemma bodyParts_literalOK (body : JsString) :
  forall lastType, Forall literalOK (bodyParts lastType body).
Proof.
  induction body as [|c body IH]; intros lt; simpl; [constructor|].
  destruct (kanjiRegex_test c) eqn:Hkj; [|destruct (kanaRegex_test c) eqn:Hkn];
    apply Forall_app; split.
  - destruct lt; simpl; repeat constructor.
  - constructor; [exact I | apply IH].
  - destruct lt; simpl; repeat constructor.
  - constructor; [exact Hkn | apply IH].
  - destruct lt; simpl; repeat constructor.
  - apply IH.
Qed.

Lemma kana_lower_bound (c : CodeUnit) : kanaRegex_test c = true -> 0x3040 <= c.
Proof.
  unfold kanaRegex_test, inRange.
  rewrite !orb_true_iff, !andb_true_iff, !Z.leb_le, Z.eqb_eq. lia.
Qed.

Lemma nextPart_char (c : CodeUnit) (r : JsString) :
  128 <= c -> nextPart (c :: r) = Some (PChar c, r).
Proof.
  intros Hc. unfold nextPart.
  change combinatorOrSeparatorGroup with [40; 91; 43; 46; 93; 63; 41].
  change furiganaGroup with [40; 91; 94; 43; 46; 93; 43; 41].
  change combinatorOrSeparator with [91; 43; 46; 93; 63].
  change combinatorOnly with [92; 46; 63].
  cbn [stripPrefix].
  replace (40 =? c) with false by (symmetry; apply Z.eqb_neq; lia).
  replace (91 =? c) with false by (symmetry; apply Z.eqb_neq; lia).
  replace (92 =? c) with false by (symmetry; apply Z.eqb_neq; lia).
  replace (c =? 94) with false by (symmetry; apply Z.eqb_neq; lia).
  replace (c =? 36) with false by (symmetry; apply Z.eqb_neq; lia).
  replace (isSyntaxCharacter c) with false; [reflexivity|].
  symmetry. unfold isSyntaxCharacter.
  change (js "^$\.*+?()[]{}|")
    with [94; 36; 92; 46; 42; 43; 63; 40; 41; 91; 93; 123; 125; 124].
  cbn [existsb]. rewrite !orb_false_iff.
  repeat split; try reflexivity; apply Z.eqb_neq; lia.
Qed.

Lemma nextPart_render (p : RegexPart) (r : JsString) :
  literalOK p -> nextPart (renderPart p ++ r) = Some (p, r).
Proof.
  destruct p; intros H; try reflexivity.
  simpl in H. apply kana_lower_bound in H.
  cbn [renderPart app]. apply nextPart_char. lia.
Qed.

Lemma renderPart_cons (p : RegexPart) :
  exists x t, renderPart p = x :: t.
Proof. destruct p; cbv; eauto. Qed.

Lemma parsePattern_render (ps : RegExp) :
  forall fuel, Forall literalOK ps -> (List.length ps <= fuel)%nat ->
    parsePattern fuel (render ps) = Some ps.
Proof.
  induction ps as [|p ps IH]; intros fuel Hok Hlen.
  - destruct fuel; reflexivity.
  - inversion Hok as [|? ? Hp Hps]; subst.
    destruct fuel as [|fuel]; [simpl in Hlen; lia|].
    change (render (p :: ps)) with (renderPart p ++ render ps).
    destruct (renderPart_cons p) as (x & t & E).
    assert (N := nextPart_render p (render ps) Hp).
    rewrite E in *. cbn [app] in *. cbn [parsePattern].
    rewrite N, IH; [reflexivity | assumption | simpl in Hlen; lia].
Qed.

Lemma render_length (ps : RegExp) : (List.length ps <= List.length (render ps))%nat.
Proof.
  induction ps as [|p ps IH]; [apply le_n|].
  change (render (p :: ps)) with (renderPart p ++ render ps).
  destruct (renderPart_cons p) as (x & t & E).
  rewrite E, length_app. simpl. lia.
Qed.

Lemma bodyToRegex_value (body : JsString) :
  bodyToRegex body = Normal (Some (bodyRegex body)).
Proof.
  unfold bodyToRegex. rewrite bodyToRegex_loop_render.
  change (JsString_eqb (js "^" ++ render (bodyParts other body)) [])
    with false. cbv iota.
  replace ((js "^" ++ render (bodyParts other body)) ++ js "$")
    with (render (bodyRegex body)).
  2:{ unfold bodyRegex. change (render (PStart :: ?l)) with (js "^" ++ render l).
      now rewrite render_app, app_assoc. }
  unfold RegExp_new. rewrite parsePattern_render; [reflexivity | | apply render_length].
  unfold bodyRegex. constructor; [exact I|].
  apply Forall_app; split; [apply bodyParts_literalOK | repeat constructor].
Qed.

(* ------------------------------------------------------------------ *)
(** ** The base segments of [matchFurigana] *)

Lemma concat_map_fst_snoc (l : list Pair) (p : Pair) :
  List.concat (List.map fst (l ++ [p])) = List.concat (List.map fst l) ++ fst p.
Proof. now rewrite map_app, concat_app; simpl; rewrite app_nil_r. Qed.

Lemma matchFurigana_step_bases (m : list JsString) (c : CodeUnit) (st : LoopState) :
  bases (matchFurigana_step m c st) = bases st ++ [c].
Proof.
  unfold matchFurigana_step, bases.
  destruct (kanjiRegex_test c).
  - destruct (CharType_eqb (lastType st) kana || CharType_eqb (lastType st) other).
    + rewrite JsString_eqb_nil. cbn [result curBodyPart].
      destruct (curBodyPart st) as [|x t]; cbn [negb].
      * now rewrite app_nil_r.
      * now rewrite concat_map_fst_snoc.
    + destruct (strictEqStr _ _ || strictEqStr _ _); cbn [result curBodyPart].
      * now rewrite app_assoc.
      * now rewrite concat_map_fst_snoc.
  - destruct (negb (CharType_eqb (lastType st) kanji)); cbn [result curBodyPart].
    + now rewrite app_assoc.
    + now rewrite concat_map_fst_snoc.
Qed.

Lemma matchFurigana_loop_bases (m : list JsString) (body : JsString) :
  forall st, bases (matchFurigana_loop m body st) = bases st ++ body.
Proof.
  induction body as [|c body IH]; intros st; simpl.
  - now rewrite app_nil_r.
  - rewrite IH, matchFurigana_step_bases, <- app_assoc. reflexivity.
Qed.

(* ------------------------------------------------------------------ *)
(** ** What the groups of a pattern capture *)

(** A match through a class term went on, in its continuation, from what
    the term took. *)
Section ClassMatchers.

Variable cls : CodeUnit -> bool.
Variable k : Continuation.

Lemma optionalClass_inv capture pos s caps r :
  optionalClass cls capture k pos s caps = Some r ->
  exists pos' s' x,
    (x = [] \/ exists c, x = [c] /\ cls c = true)
    /\ k pos' s' (if capture then caps ++ [x] else caps) = Some r.
Proof.
  unfold optionalClass. intros H.
  assert (Skip : k pos s (if capture then caps ++ [[]] else caps) = Some r ->
                 exists pos' s' x,
                   (x = [] \/ exists c, x = [c] /\ cls c = true)
                   /\ k pos' s' (if capture then caps ++ [x] else caps) = Some r).
  { intros E. exists pos, s, []. split; [now left | exact E]. }
  destruct s as [|c s']; [now apply Skip|].
  destruct (cls c) eqn:Hc; [|now apply Skip].
  destruct (k (S pos) s' _) as [r'|] eqn:E; [|now apply Skip].
  inversion H; subst r'. exists (S pos), s', [c].
  split; [right; eauto | exact E].
Qed.

Lemma repeatClass_inv s :
  forall acc pos caps r,
    Forall (fun c => cls c = true) acc ->
    repeatClass cls k acc pos s caps = Some r ->
    exists pos' s' acc',
      acc' <> [] /\ Forall (fun c => cls c = true) acc'
      /\ k pos' s' (caps ++ [acc']) = Some r.
Proof.
  induction s as [|c s IH]; intros acc pos caps r Hacc H; simpl in H.
  - destruct acc as [|a acc]; [discriminate|].
    exists pos, [], (a :: acc). repeat split; [discriminate | assumption | assumption].
  - assert (Stop : match acc with
                   | [] => None
                   | _ :: _ => k pos (c :: s) (caps ++ [acc])
                   end = Some r ->
                   exists pos' s' acc',
                     acc' <> [] /\ Forall (fun c => cls c = true) acc'
                     /\ k pos' s' (caps ++ [acc']) = Some r).
    { destruct acc as [|a acc]; [discriminate|]. intros E.
      exists pos, (c :: s), (a :: acc).
      repeat split; [discriminate | assumption | assumption]. }
    destruct (cls c) eqn:Hc; [|now apply Stop].
    destruct (repeatClass cls k (acc ++ [c]) (S pos) s caps) as [r'|] eqn:E;
      [|now apply Stop].
    inversion H; subst r'.
    apply (IH (acc ++ [c]) (S pos) caps r); [|exact E].
    apply Forall_app; split; [assumption | repeat constructor; assumption].
Qed.

End ClassMatchers.

Lemma isPlusOrDot_cases (c : CodeUnit) :
  isPlusOrDot c = true -> c = cPlus \/ c = cDot.
Proof.
  unfold isPlusOrDot. rewrite orb_true_iff, !Z.eqb_eq. tauto.
Qed.

Lemma matchParts_captures (re : RegExp) :
  forall pos s caps e caps',
    matchParts re pos s caps = Some (e, caps') ->
    exists new, caps' = caps ++ new /\ Forall2 capOK (groupsOf re) new.
Proof.
  induction re as [|p re IH]; intros pos s caps e caps' H.
  - inversion H; subst. exists []. split; [now rewrite app_nil_r | constructor].
  - destruct p; cbn [matchParts] in H.
    + destruct pos; [|discriminate]. apply IH in H. exact H.
    + destruct s; [|discriminate]. apply IH in H. exact H.
    + apply optionalClass_inv in H. destruct H as (pos' & s' & x & Hx & H).
      apply IH in H. destruct H as (new & -> & Hnew).
      exists (x :: new). split; [now rewrite <- app_assoc|].
      cbn. constructor; [|exact Hnew].
      destruct Hx as [->|(c & -> & Hc)]; [now left|].
      apply isPlusOrDot_cases in Hc. destruct Hc as [->| ->]; simpl; auto.
    + apply optionalClass_inv in H. destruct H as (pos' & s' & x & _ & H).
      apply IH in H. exact H.
    + apply optionalClass_inv in H. destruct H as (pos' & s' & x & _ & H).
      apply IH in H. exact H.
    + apply repeatClass_inv in H; [|constructor].
      destruct H as (pos' & s' & acc' & Hne & Hall & H).
      apply IH in H. destruct H as (new & -> & Hnew).
      exists (acc' :: new). split; [now rewrite <- app_assoc|].
      cbn. constructor; [split; assumption | exact Hnew].
    + destruct s as [|d s']; [discriminate|].
      destruct (d =? c); [|discriminate]. apply IH in H. exact H.
Qed.

Lemma execFrom_captures (re : RegExp) (rest : JsString) :
  forall pos m,
    execFrom re pos rest = Some m ->
    exists whole caps, m = whole :: caps /\ Forall2 capOK (groupsOf re) caps.
Proof.
  induction rest as [|c rest IH]; intros pos m H; simpl in H.
  - destruct (matchParts re pos [] []) as [[e caps]|] eqn:E; [|discriminate].
    inversion H; subst. apply matchParts_captures in E.
    destruct E as (new & -> & Hnew). eauto.
  - destruct (matchParts re pos (c :: rest) []) as [[e caps]|] eqn:E.
    + inversion H; subst. apply matchParts_captures in E.
      destruct E as (new & -> & Hnew). eauto.
    + apply IH in H. exact H.
Qed.

(** A pattern that starts with [^] matches at index 0 or nowhere. *)
Lemma execFrom_later (re : RegExp) (rest : JsString) :
  forall pos, hd_error re = Some PStart -> execFrom re (S pos) rest = None.
Proof.
  destruct re as [|p re]; [discriminate|].
  induction rest as [|c rest IH]; intros pos H; inversion H; subst;
    cbn [execFrom matchParts]; [reflexivity | now apply IH].
Qed.

Lemma groupsOf_app (a b : RegExp) : groupsOf (a ++ b) = groupsOf a ++ groupsOf b.
Proof. apply flat_map_app. Qed.

Lemma groupsOf_bodyParts (body : JsString) :
  forall lastType,
    groupsOf (bodyParts lastType body)
    = bodyGroups (CharType_eqb lastType kanji) body.
Proof.
  induction body as [|c body IH]; intros lt; simpl; [reflexivity|].
  destruct (kanjiRegex_test c); [|destruct (kanaRegex_test c)];
    rewrite groupsOf_app; [change (PFurigana :: ?l) with ([PFurigana] ++ l)
                          |change (PChar c :: ?l) with ([PChar c] ++ l) |];
    rewrite ?groupsOf_app, IH; destruct lt; reflexivity.
Qed.

Lemma groupsOf_bodyRegex (body : JsString) :
  groupsOf (bodyRegex body) = bodyGroups false body.
Proof.
  unfold bodyRegex. change (PStart :: ?l) with ([PStart] ++ l).
  rewrite !groupsOf_app, groupsOf_bodyParts. simpl. now rewrite app_nil_r.
Qed.

Lemma exec_bodyRegex_captures (body input : JsString) (m : list JsString) :
  exec (bodyRegex body) input = Some m ->
  exists whole caps,
    m = whole :: caps /\ Forall2 capOK (bodyGroups false body) caps.
Proof.
  unfold exec. intros H. apply execFrom_captures in H.
  now rewrite groupsOf_bodyRegex in H.
Qed.

(* ------------------------------------------------------------------ *)
(** ** The loop of [matchFurigana] reads the captures in step *)

Lemma skipn_cons_index (m : list JsString) (i : nat) x t :
  skipn i m = x :: t -> index m i = JStr x /\ skipn (S i) m = t.
Proof.
  revert i; induction m as [|y m IH]; intros [|i] H; simpl in H; try discriminate.
  - inversion H; subst. split; reflexivity.
  - apply IH in H. exact H.
Qed.

Lemma furiganaText_app (a b : JsString) :
  furiganaText a -> furiganaText b -> furiganaText (a ++ b).
Proof.
  intros [Ha Fa] [Hb Fb]. split.
  - destruct a; [contradiction | discriminate].
  - apply Forall_app; split; assumption.
Qed.

Lemma goodPair_kanji (c : CodeUnit) (s : JsString) :
  furiganaText s -> goodPair ([c], JStr s).
Proof. intros H. exists s. split; [reflexivity | intros; exact H]. Qed.

Lemma goodPair_nonkanji (b : JsString) (s : JsString) :
  (forall c rest, b = c :: rest -> kanjiRegex_test c = false) ->
  goodPair (b, JStr s).
Proof.
  intros H. exists s. split; [reflexivity|].
  intros c rest E K. simpl in E. rewrite (H c rest E) in K. discriminate.
Qed.

Lemma Forall_snoc {A} (P : A -> Prop) (l : list A) (x : A) :
  Forall P l -> P x -> Forall P (l ++ [x]).
Proof. intros. apply Forall_app; split; [assumption | repeat constructor; assumption]. Qed.

Lemma matchFurigana_step_ok (m : list JsString) (c : CodeUnit)
  (body : JsString) (st : LoopState) :
  StateOK st -> InStep m (c :: body) st ->
  StateOK (matchFurigana_step m c st)
  /\ InStep m body (matchFurigana_step m c st).
Proof.
  intros [Hres Hcur Hkj Hot] Hstep.
  unfold InStep in *. unfold matchFurigana_step.
  cbn [bodyGroups] in Hstep.
  destruct (kanjiRegex_test c) eqn:Kc.
  - destruct (lastType st) eqn:Lt; cbn [CharType_eqb orb] in *.
    + (* logographic after other *)
      inversion Hstep as [|g x gs t Hx Ht Eg Et]; subst.
      symmetry in Et. apply skipn_cons_index in Et. destruct Et as [Ei Es].
      rewrite Ei. split; [|cbn [lastType matchIndex CharType_eqb]; now rewrite Es].
      constructor; cbn.
      * rewrite JsString_eqb_nil. destruct (curBodyPart st); cbn [negb];
          [assumption | now apply Forall_snoc].
      * now apply goodPair_kanji.
      * intros _. eauto.
      * intros N. now contradiction N.
    + (* logographic after logographic *)
      inversion Hstep as [|g x gs t Hx Ht' Eg Et]; subst.
      inversion Ht' as [|g' y gs' t' Hy Ht Eg' Et']; subst.
      symmetry in Et. apply skipn_cons_index in Et. destruct Et as [Ei Es].
      assert (Es' := Es). apply skipn_cons_index in Es'. destruct Es' as [Ei' Es'].
      rewrite Ei, Ei'.
      destruct (Hkj eq_refl) as (c0 & rest0 & Eb & K0).
      destruct Hcur as (s & Etop & Htop). cbn in Etop, Htop.
      specialize (Htop c0 rest0 Eb K0).
      destruct (strictEqStr (JStr x) (js "+") || strictEqStr (JStr x) []) eqn:Conn.
      * split; [|cbn [lastType matchIndex CharType_eqb]; rewrite Es'; exact Ht].
        constructor; cbn.
        -- assumption.
        -- rewrite Etop, Eb. exists (s ++ y). split; [reflexivity|].
           intros _ _ _ _. now apply furiganaText_app.
        -- intros _. rewrite Eb. exists c0, (rest0 ++ [c]). now split.
        -- intros N. now contradiction N.
      * split; [|cbn [lastType matchIndex CharType_eqb]; rewrite Es'; exact Ht].
        constructor; cbn.
        -- apply Forall_snoc; [assumption|].
           exists s. split; [exact Etop | intros; exact Htop].
        -- now apply goodPair_kanji.
        -- intros _. eauto.
        -- intros N. now contradiction N.
    + (* logographic after phonetic *)
      inversion Hstep as [|g x gs t Hx Ht Eg Et]; subst.
      symmetry in Et. apply skipn_cons_index in Et. destruct Et as [Ei Es].
      rewrite Ei. split; [|cbn [lastType matchIndex CharType_eqb]; now rewrite Es].
      constructor; cbn.
      * rewrite JsString_eqb_nil. destruct (curBodyPart st); cbn [negb];
          [assumption | now apply Forall_snoc].
      * now apply goodPair_kanji.
      * intros _. eauto.
      * intros N. now contradiction N.
  - destruct (CharType_eqb (lastType st) kanji) eqn:Lk; cbn [negb].
    + (* the first character after a logographic run *)
      split.
      * constructor; cbn.
        -- now apply Forall_snoc.
        -- apply goodPair_nonkanji. intros c' r E. inversion E; subst. exact Kc.
        -- destruct (kanaRegex_test c); discriminate.
        -- intros _ c' r E. inversion E; subst. exact Kc.
      * cbn [lastType matchIndex]. destruct (kanaRegex_test c); exact Hstep.
    + (* a further character of a run without logographs *)
      assert (Nk : lastType st <> kanji).
      { intros E. rewrite E in Lk. discriminate. }
      assert (Hrun : forall c' r, curBodyPart st ++ [c] = c' :: r
                                  -> kanjiRegex_test c' = false).
      { intros c' r E. destruct (curBodyPart st) as [|b0 bt] eqn:Eb.
        - inversion E; subst. exact Kc.
        - inversion E; subst. exact (Hot Nk c' bt eq_refl). }
      split; [|cbn [lastType matchIndex CharType_eqb]; now rewrite Lk].
      constructor; cbn.
      * assumption.
      * destruct Hcur as (s & Etop & _). cbn in Etop. rewrite Etop.
        now apply goodPair_nonkanji.
      * intros E. now contradiction Nk.
      * intros _. exact Hrun.
Qed.

Lemma matchFurigana_loop_ok (m : list JsString) (body : JsString) :
  forall st, StateOK st -> InStep m body st ->
             StateOK (matchFurigana_loop m body st).
Proof.
  induction body as [|c body IH]; intros st Hok Hstep; simpl; [assumption|].
  destruct (matchFurigana_step_ok m c body st Hok Hstep) as [Hok' Hstep'].
  now apply IH.
Qed.

Lemma initialState_ok : StateOK initialState.
Proof.
  constructor; cbn.
  - constructor.
  - apply goodPair_nonkanji. discriminate.
  - discriminate.
  - discriminate.
Qed.

Lemma matchedPairs_good (body input : JsString) (m : list JsString) :
  exec (bodyRegex body) input = Some m ->
  Forall goodPair (matchedPairs m body).
Proof.
  intros H. apply exec_bodyRegex_captures in H.
  destruct H as (whole & caps & -> & Hcaps).
  assert (Hok : StateOK (matchFurigana_loop (whole :: caps) body initialState)).
  { apply matchFurigana_loop_ok; [apply initialState_ok | exact Hcaps]. }
  unfold matchedPairs. destruct Hok as [Hres Hcur _ _].
  now apply Forall_snoc.
Qed.

Lemma matchedPairs_bases (m : list JsString) (body : JsString) :
  List.concat (List.map fst (matchedPairs m body)) = body.
Proof.
  unfold matchedPairs. rewrite concat_map_fst_snoc. cbn [fst].
  exact (matchFurigana_loop_bases m body initialState).
Qed.

(** [matchFurigana] by cases, the pattern of the body being known. *)
Lemma matchFurigana_unfold (body toptext : JsString) (options : FuriganaOptions) :
  matchFurigana body toptext options
  = if disabledRegex_test toptext then Normal [(body, JStr (slice1 toptext))]
    else match exec (bodyRegex body) (cleanFurigana toptext options) with
         | None => Normal [(body, JStr toptext)]
         | Some m => Normal (matchedPairs m body)
         end.
Proof.
  unfold matchFurigana. rewrite bodyToRegex_value. reflexivity.
Qed.

(* ------------------------------------------------------------------ *)
(** ** The mode tests and [cleanFurigana], code unit by code unit *)

Lemma emphasisDotsIndicatorRegex_test_cons (c : CodeUnit) (rest : JsString) :
  emphasisDotsIndicatorRegex_test (c :: rest) = (c =? 0x2a) || (c =? 0xff0a).
Proof.
  unfold emphasisDotsIndicatorRegex_test.
  destruct rest; [|rewrite orb_true_r]; apply andb_true_r.
Qed.

Lemma replaceAll_single (re : ClassRegExp) (x : CodeUnit) (s : JsString) :
  replaceAll re [x] s
  = List.map (fun c => if ClassRegExp_test re c then x else c) s.
Proof.
  unfold replaceAll. induction s as [|c s IH]; simpl; [reflexivity|].
  rewrite IH. now destruct (ClassRegExp_test re c).
Qed.

Lemma cleanFurigana_map (r : JsString) (options : FuriganaOptions) :
  cleanFurigana r options = List.map (cleanChar options) r.
Proof.
  unfold cleanFurigana. change (js ".") with [cDot]. change (js "+") with [cPlus].
  rewrite !replaceAll_single, map_map. reflexivity.
Qed.

Lemma cleanChar_idempotent (options : FuriganaOptions) (c : CodeUnit) :
  ClassRegExp_test (separatorRegex options) cPlus = false ->
  cleanChar options (cleanChar options c) = cleanChar options c.
Proof.
  intros Hplus. unfold cleanChar.
  destruct (ClassRegExp_test (separatorRegex options) c) eqn:Sc.
  - destruct (ClassRegExp_test (combinatorRegex options) cDot) eqn:Cd.
    + rewrite Hplus. now destruct (ClassRegExp_test (combinatorRegex options) cPlus).
    + destruct (ClassRegExp_test (separatorRegex options) cDot); now rewrite Cd.
  - destruct (ClassRegExp_test (combinatorRegex options) c) eqn:Cc.
    + rewrite Hplus. now destruct (ClassRegExp_test (combinatorRegex options) cPlus).
    + now rewrite Sc, Cc.
Qed.

Lemma cleanChar_underscore (options : FuriganaOptions) (c : CodeUnit) :
  separatesAtUnderscore options ->
  cleanChar options c
  = cleanChar new_FuriganaOptions (if c =? cUnderscore then cDot else c).
Proof.
  intros [Hs Hc]. unfold cleanChar. rewrite Hs.
  destruct (Z.eqb_spec c cUnderscore) as [->|Hne].
  - rewrite orb_true_r, Hc. reflexivity.
  - rewrite orb_false_r.
    destruct (ClassRegExp_test (separatorRegex new_FuriganaOptions) c);
      now rewrite Hc.
Qed.

Lemma cleanFurigana_underscore (options : FuriganaOptions) (r : JsString) :
  separatesAtUnderscore options ->
  cleanFurigana r options
  = cleanFurigana (underscoresToDots r) new_FuriganaOptions.
Proof.
  intros H. rewrite !cleanFurigana_map. unfold underscoresToDots.
  rewrite map_map. apply map_ext. intros c. now apply cleanChar_underscore.
Qed.

Lemma markers_underscore (r : JsString) :
  emphasisDotsIndicatorRegex_test (underscoresToDots r)
  = emphasisDotsIndicatorRegex_test r
  /\ disabledRegex_test (underscoresToDots r) = disabledRegex_test r.
Proof.
  destruct r as [|c r]; [split; reflexivity|].
  unfold underscoresToDots. cbn [List.map].
  rewrite !emphasisDotsIndicatorRegex_test_cons. cbn [disabledRegex_test].
  destruct (Z.eqb_spec c cUnderscore) as [->|Hne]; split; reflexivity.
Qed.

Lemma underscoreOptions_separates :
  separatesAtUnderscore Examples.underscoreOptions.
Proof.
  split; intros c; [|reflexivity].
  unfold Examples.underscoreOptions, ClassRegExp_test. cbn [separatorRegex].
  rewrite existsb_app. cbn [existsb ClassAtom_test]. now rewrite orb_false_r.
Qed.

(* ------------------------------------------------------------------ *)
(** ** The string iteration yields the characters of the string *)

Lemma stringIterator_cons2 (c d : CodeUnit) (s : JsString) :
  stringIterator (c :: d :: s)
  = if isHighSurrogate c && isLowSurrogate d
    then [c; d] :: stringIterator s
    else [c] :: stringIterator (d :: s).
Proof. reflexivity. Qed.

Lemma stringIterator_head (c : CodeUnit) (s : JsString) :
  exists t rest, stringIterator (c :: s) = (c :: t) :: rest.
Proof.
  destruct s as [|d s]; [now exists [], []|].
  rewrite stringIterator_cons2.
  destruct (isHighSurrogate c && isLowSurrogate d); eauto.
Qed.

Lemma stringIterator_codePoints (s : JsString) :
  Forall isCodePoint (stringIterator s)
  /\ forall c, Forall isCodePoint (stringIterator (c :: s)).
Proof.
  induction s as [|d s [IH1 IH2]].
  - split; [constructor|]. intros c. cbn.
    constructor; [left; eauto | constructor].
  - split; [apply IH2|]. intros c. rewrite stringIterator_cons2.
    destruct (isHighSurrogate c && isLowSurrogate d) eqn:E.
    + apply andb_true_iff in E. destruct E as [Eh El].
      constructor; [|exact IH1]. right. exists c, d. auto.
    + constructor; [|apply IH2]. left. eauto.
Qed.

Lemma stringIterator_noSplit (s : JsString) :
  noSplitPair (stringIterator s)
  /\ forall c, noSplitPair (stringIterator (c :: s)).
Proof.
  induction s as [|d s [IH1 IH2]].
  - split; [exact I|]. intros c. cbn. auto.
  - split; [apply IH2|]. intros c. rewrite stringIterator_cons2.
    destruct (isHighSurrogate c && isLowSurrogate d) eqn:E.
    + cbn [noSplitPair]. split; [|exact IH1].
      destruct (stringIterator s); reflexivity.
    + cbn [noSplitPair]. split; [|apply IH2].
      destruct (stringIterator_head d s) as (t & rest & ->).
      cbn [splitsPair]. exact E.
Qed.

Lemma charactersOf_stringIterator (s : JsString) :
  charactersOf s (stringIterator s).
Proof.
  repeat split.
  - apply stringIterator_concat.
  - apply stringIterator_codePoints.
  - apply stringIterator_noSplit.
Qed.

Lemma charactersOf_unique (chars : list JsString) :
  forall s, charactersOf s chars -> chars = stringIterator s.
Proof.
  induction chars as [|ch rest IH]; intros s (Hc & Hf & Hn).
  - cbn in Hc. now subst s.
  - inversion Hf as [|? ? Hch Hrest]; subst.
    cbn [noSplitPair] in Hn. destruct Hn as [Hnext Hn].
    assert (IHr : rest = stringIterator (List.concat rest))
      by (apply IH; repeat split; assumption).
    cbn [List.concat].
    destruct Hch as [(u & ->) | (h & l & -> & Eh & El)].
    + cbn [app]. destruct rest as [|next rest']; [reflexivity|].
      inversion Hrest as [|? ? Hnx _]; subst.
      assert (Hv : exists v t, next = v :: t)
        by (destruct Hnx as [(v & ->) | (v & w & -> & _)]; eauto).
      destruct Hv as (v & t & ->).
      cbn [List.concat app] in *. rewrite stringIterator_cons2.
      cbn [splitsPair] in Hnext. rewrite Hnext. now rewrite <- IHr.
    + cbn [app]. rewrite stringIterator_cons2, Eh, El. cbn [andb].
      now rewrite <- IHr.
Qed.

(* ================================================================== *)
(** * The claims of the specification *)

(** C1. In every mode (disabled, emphasis, successful match, fallback) the
    call returns, and the base segments of the pairs returned, concatenated
    in order, are the body. *)
Theorem base_segments_concat (body toptext : JsString) (options : FuriganaOptions) :
  exists pairs,
    furigana body toptext options = Normal pairs
    /\ List.concat (List.map fst pairs) = body.
Proof.
  unfold furigana.
  destruct (emphasisDotsIndicatorRegex_test toptext).
  - eexists; split; [reflexivity|].
    unfold rubifyEveryCharacter. rewrite map_map. cbn [fst].
    rewrite map_id. apply stringIterator_concat.
  - rewrite matchFurigana_unfold.
    destruct (disabledRegex_test toptext).
    + eexists; split; [reflexivity|]. cbn. apply app_nil_r.
    + destruct (exec _ _) as [m|].
      * eexists; split; [reflexivity|]. apply matchedPairs_bases.
      * eexists; split; [reflexivity|]. cbn. apply app_nil_r.
Qed.

(** C2, as the code has it.  For the body U+53EF U+611B U+3044 U+72AC and
    the reading "ka . wai . i . inu" written with middle dots, the default
    options give four pairs; the phonetic character U+3044 forms a pair of
    its own whose reading segment is empty. *)
Theorem kawaii_inu_pairs :
  furigana_default Examples.kawaii_inu Examples.ka_wai_i_inu
  = Normal [ ([0x53ef], JStr Examples.ka);
             ([0x611b], JStr Examples.wai);
             ([0x3044], JStr []);
             ([0x72ac], JStr Examples.inu) ].
Proof. vm_compute. reflexivity. Qed.

(** C2, as the specification states it, fails: the third pair does not
    carry the reading "i". *)
Lemma kawaii_inu_not_as_stated :
  furigana_default Examples.kawaii_inu Examples.ka_wai_i_inu
  <> Normal [ ([0x53ef], JStr Examples.ka);
              ([0x611b], JStr Examples.wai);
              ([0x3044], JStr Examples.i);
              ([0x72ac], JStr Examples.inu) ].
Proof. vm_compute. discriminate. Qed.

(** C3, evaluated on the code.  The pattern text starts as "^", so the test
    for the empty text never holds: [bodyToRegex] returns a pattern for
    every body, and for the empty body the pattern "^$". *)
Theorem bodyToRegex_never_null :
  bodyToRegex [] = Normal (Some [PStart; PEnd])
  /\ forall body, exists re, bodyToRegex body = Normal (Some re).
Proof.
  split; [reflexivity|]. intros body. exists (bodyRegex body).
  apply bodyToRegex_value.
Qed.

(** C4. Without a leading marker, when the pattern of the body does not
    match the cleaned reading (or there is no pattern), the result is the
    one pair of the body and the reading as given. *)
Theorem fallback_pair (body toptext : JsString) (options : FuriganaOptions) :
  emphasisDotsIndicatorRegex_test toptext = false ->
  disabledRegex_test toptext = false ->
  match bodyToRegex body with
  | Normal (Some re) => exec re (cleanFurigana toptext options) = None
  | Normal None => True
  | ThrowSyntaxError => False
  end ->
  furigana body toptext options = Normal [(body, JStr toptext)].
Proof.
  intros He Hd H. unfold furigana, matchFurigana. rewrite He, Hd.
  destruct (bodyToRegex body) as [[re|]|]; [|reflexivity|contradiction].
  now rewrite H.
Qed.

Lemma fallback_pair_witness :
  furigana Examples.taberu Examples.ta_be_be new_FuriganaOptions
  = Normal [(Examples.taberu, JStr Examples.ta_be_be)].
Proof.
  apply (fallback_pair Examples.taberu Examples.ta_be_be new_FuriganaOptions);
    vm_compute; reflexivity.
Defined.

(** C5. A reading that starts with [=] or the full-width equals sign gives
    the one pair of the body and the reading without that first code unit,
    whatever the body and the options. *)
Theorem disabled_mode (body : JsString) (c : CodeUnit) (rest : JsString)
  (options : FuriganaOptions) :
  c = 0x3d \/ c = 0xff1d ->
  furigana body (c :: rest) options = Normal [(body, JStr rest)].
Proof.
  intros H. unfold furigana, matchFurigana.
  rewrite emphasisDotsIndicatorRegex_test_cons.
  destruct H as [-> | ->]; reflexivity.
Qed.

Lemma disabled_mode_witness :
  furigana Examples.taberu Examples.eq_ta_be_ru new_FuriganaOptions
  = Normal [(Examples.taberu, JStr Examples.ta_be_ru)].
Proof.
  apply (disabled_mode Examples.taberu 0xff1d Examples.ta_be_ru).
  right; reflexivity.
Defined.

(** C6. A reading that starts with [*] or the full-width asterisk gives one
    pair per character of the body, in order, each with the same mark: the
    rest of the reading, or the black circle U+25CF when the rest is empty.
    This holds for every body: the characters are the pieces of
    [charactersOf] (a code unit each, a surrogate pair being one
    character), of which the body has exactly one list; for a body without
    high surrogates they are its code units.  Neither the pattern of the
    body nor the options take part. *)
Theorem emphasis_mode (body : JsString) (c : CodeUnit) (rest : JsString)
  (options : FuriganaOptions) :
  c = 0x2a \/ c = 0xff0a ->
  let mark := match rest with [] => [0x25cf] | _ :: _ => rest end in
  (exists chars,
      charactersOf body chars
      /\ furigana body (c :: rest) options
         = Normal (List.map (fun ch => (ch, JStr mark)) chars))
  /\ (forall chars,
         charactersOf body chars ->
         furigana body (c :: rest) options
         = Normal (List.map (fun ch => (ch, JStr mark)) chars))
  /\ ((forall u, In u body -> isHighSurrogate u = false) ->
      furigana body (c :: rest) options
      = Normal (List.map (fun u => ([u], JStr mark)) body)).
Proof.
  intros H mark.
  assert (E : furigana body (c :: rest) options
              = Normal (List.map (fun ch => (ch, JStr mark)) (stringIterator body))).
  { unfold furigana. rewrite emphasisDotsIndicatorRegex_test_cons.
    replace ((c =? 0x2a) || (c =? 0xff0a)) with true
      by (destruct H as [-> | ->]; reflexivity).
    unfold rubifyEveryCharacter, slice1. cbn [tl].
    rewrite JsString_eqb_nil. subst mark. now destruct rest. }
  split; [|split].
  - exists (stringIterator body).
    split; [apply charactersOf_stringIterator | exact E].
  - intros chars Hchars.
    now rewrite (charactersOf_unique chars body Hchars).
  - intros Hbmp.
    rewrite E, (stringIterator_bmp body Hbmp), map_map. reflexivity.
Qed.

Lemma emphasis_mode_witness :
  furigana Examples.dakara [0x2a] new_FuriganaOptions
  = Normal [([0x3060], JStr [0x25cf]); ([0x304b], JStr [0x25cf]);
            ([0x3089], JStr [0x25cf])]
  /\ furigana Examples.dakara [0x2a; 0x2b] new_FuriganaOptions
     = Normal [([0x3060], JStr [0x2b]); ([0x304b], JStr [0x2b]);
               ([0x3089], JStr [0x2b])]
  /\ furigana [0xd842; 0xdfb7; 0x91ce] [0xff0a] new_FuriganaOptions
     = Normal [([0xd842; 0xdfb7], JStr [0x25cf]); ([0x91ce], JStr [0x25cf])].
Proof.
  split; [|split].
  - apply (proj1 (proj2 (emphasis_mode Examples.dakara 0x2a []
                           new_FuriganaOptions (or_introl eq_refl)))
                 [[0x3060]; [0x304b]; [0x3089]]).
    split; [reflexivity|]. split; [|vm_compute; repeat split].
    constructor; [left; eauto|]. constructor; [left; eauto|].
    constructor; [left; eauto | constructor].
  - apply (proj2 (proj2 (emphasis_mode Examples.dakara 0x2a [0x2b]
                           new_FuriganaOptions (or_introl eq_refl)))).
    intros u [<-|[<-|[<-|[]]]]; reflexivity.
  - apply (proj1 (proj2 (emphasis_mode [0xd842; 0xdfb7; 0x91ce] 0xff0a []
                           new_FuriganaOptions (or_intror eq_refl)))
                 [[0xd842; 0xdfb7]; [0x91ce]]).
    split; [reflexivity|]. split; [|vm_compute; repeat split].
    constructor; [right; exists 0xd842, 0xdfb7; auto|].
    constructor; [left; eauto | constructor].
Defined.

(** C7. The call returns for every body, reading and options, empty
    strings included: no [SyntaxError] is thrown, and every reading segment
    returned is a string (never [undefined]).  For the empty body and a
    reading without a leading marker the result is the one pair of the
    empty string and the reading. *)
Theorem furigana_total (body toptext : JsString) (options : FuriganaOptions) :
  (exists pairs,
      furigana body toptext options = Normal pairs
      /\ Forall (fun p => exists s, snd p = JStr s) pairs)
  /\ (body = [] ->
      emphasisDotsIndicatorRegex_test toptext = false ->
      disabledRegex_test toptext = false ->
      furigana body toptext options = Normal [([], JStr toptext)]).
Proof.
  split.
  - unfold furigana.
    destruct (emphasisDotsIndicatorRegex_test toptext).
    + eexists; split; [reflexivity|].
      unfold rubifyEveryCharacter. apply Forall_map, Forall_forall.
      intros ch _. cbn. eauto.
    + rewrite matchFurigana_unfold.
      destruct (disabledRegex_test toptext).
      * eexists; split; [reflexivity|]. repeat constructor. cbn. eauto.
      * destruct (exec _ _) as [m|] eqn:E.
        -- eexists; split; [reflexivity|].
           apply matchedPairs_good in E.
           eapply Forall_impl; [|exact E].
           intros p (s & Hs & _). eauto.
        -- eexists; split; [reflexivity|]. repeat constructor. cbn. eauto.
  - intros -> He Hd. unfold furigana. rewrite He, matchFurigana_unfold, Hd.
    change (bodyRegex []) with [PStart; PEnd].
    destruct (cleanFurigana toptext options) as [|x t] eqn:Ec.
    + rewrite cleanFurigana_map in Ec. apply map_eq_nil in Ec. subst toptext.
      reflexivity.
    + replace (exec [PStart; PEnd] (x :: t)) with (@None (list JsString));
        [reflexivity|].
      unfold exec. cbn [execFrom matchParts]. symmetry. apply execFrom_later.
      reflexivity.
Qed.

Lemma furigana_total_witness :
  furigana [] Examples.ta_be_ru new_FuriganaOptions
  = Normal [([], JStr Examples.ta_be_ru)].
Proof.
  apply (proj2 (furigana_total [] Examples.ta_be_ru new_FuriganaOptions));
    reflexivity.
Defined.

(** C8, as the code has it.  For options whose separators do not include
    [+] (the default options are such), cleaning a cleaned reading changes
    nothing; and when moreover the combinators do not include [.], a
    reading made of the two canonical marks and of characters that are
    neither separators nor combinators is returned as it is. *)
Theorem cleanFurigana_idempotent (options : FuriganaOptions) :
  ClassRegExp_test (separatorRegex options) cPlus = false ->
  (forall r,
      cleanFurigana (cleanFurigana r options) options = cleanFurigana r options)
  /\ (ClassRegExp_test (combinatorRegex options) cDot = false ->
      forall r,
        Forall (fun c => c = cDot \/ c = cPlus
                         \/ (ClassRegExp_test (separatorRegex options) c = false
                             /\ ClassRegExp_test (combinatorRegex options) c = false))
               r ->
        cleanFurigana r options = r).
Proof.
  intros Hplus. split.
  - intros r. rewrite !cleanFurigana_map, map_map.
    apply map_ext. intros c. now apply cleanChar_idempotent.
  - intros Hdot r Hr. rewrite cleanFurigana_map.
    induction Hr as [|c r Hc _ IH]; [reflexivity|].
    cbn [List.map]. rewrite IH. f_equal. unfold cleanChar.
    destruct Hc as [-> | [-> | [Hs Hc]]].
    + destruct (ClassRegExp_test (separatorRegex options) cDot); now rewrite Hdot.
    + rewrite Hplus.
      now destruct (ClassRegExp_test (combinatorRegex options) cPlus).
    + now rewrite Hs, Hc.
Qed.

Lemma cleanFurigana_idempotent_witness :
  cleanFurigana (cleanFurigana Examples.ka_wai_i_inu new_FuriganaOptions)
                new_FuriganaOptions
  = cleanFurigana Examples.ka_wai_i_inu new_FuriganaOptions
  /\ cleanFurigana [0x304b; cDot; 0x308f; cPlus; 0x3044] new_FuriganaOptions
     = [0x304b; cDot; 0x308f; cPlus; 0x3044].
Proof.
  split.
  - apply (proj1 (cleanFurigana_idempotent new_FuriganaOptions eq_refl)).
  - apply (proj2 (cleanFurigana_idempotent new_FuriganaOptions eq_refl) eq_refl).
    repeat constructor; right; right; split; reflexivity.
Defined.

(** C8, as the specification states it, fails for options that count [+]
    among the separators: the full-width plus is cleaned to [+], and [+] is
    cleaned to [.]. *)
Lemma cleanFurigana_not_idempotent :
  cleanFurigana (cleanFurigana [0xff0b] Examples.plusSeparatorOptions)
                Examples.plusSeparatorOptions
  <> cleanFurigana [0xff0b] Examples.plusSeparatorOptions.
Proof. vm_compute. discriminate. Qed.

(** C9, as the code has it.  For options whose separators are the built-in
    ones and [_], a reading without a leading marker whose cleaned form the
    pattern of the body matches gives the same pairs as the reading with
    every [_] replaced by [.] gives under the default options. *)
Theorem underscore_as_separator (options : FuriganaOptions)
  (body reading : JsString) (re : RegExp) (m : list JsString) :
  separatesAtUnderscore options ->
  emphasisDotsIndicatorRegex_test reading = false ->
  disabledRegex_test reading = false ->
  bodyToRegex body = Normal (Some re) ->
  exec re (cleanFurigana reading options) = Some m ->
  furigana body reading options
  = furigana body (underscoresToDots reading) new_FuriganaOptions.
Proof.
  intros Hopt He Hd Hre Hm.
  destruct (markers_underscore reading) as [He' Hd'].
  unfold furigana, matchFurigana.
  rewrite He', Hd', He, Hd, Hre, <- (cleanFurigana_underscore options reading Hopt).
  now rewrite Hm.
Qed.

Lemma underscore_as_separator_witness :
  furigana Examples.kawaii_inu
           [0x304b; cUnderscore; 0x308f; 0x3044; cUnderscore; 0x3044;
            cUnderscore; 0x3044; 0x306c]
           Examples.underscoreOptions
  = furigana Examples.kawaii_inu
             [0x304b; cDot; 0x308f; 0x3044; cDot; 0x3044; cDot; 0x3044; 0x306c]
             new_FuriganaOptions.
Proof.
  apply (underscore_as_separator Examples.underscoreOptions Examples.kawaii_inu
           [0x304b; cUnderscore; 0x308f; 0x3044; cUnderscore; 0x3044;
            cUnderscore; 0x3044; 0x306c]
           (bodyRegex Examples.kawaii_inu)
           [ [0x304b; cDot; 0x308f; 0x3044; cDot; 0x3044; cDot; 0x3044; 0x306c];
             Examples.ka; [cDot]; Examples.wai; Examples.inu ]).
  - exact underscoreOptions_separates.
  - reflexivity.
  - reflexivity.
  - vm_compute; reflexivity.
  - vm_compute; reflexivity.
Defined.

(** C9, as the specification states it, fails when the pattern does not
    match: the fallback pair carries the reading as written, with its [_]. *)
Lemma underscore_fallback_differs :
  furigana Examples.taberu [0x305f; cUnderscore; 0x3079; 0x3079]
           Examples.underscoreOptions
  <> furigana Examples.taberu [0x305f; cDot; 0x3079; 0x3079]
              new_FuriganaOptions.
Proof. vm_compute. discriminate. Qed.

(** C10. When the pattern of the body matches the cleaned reading, every
    pair returned whose base segment starts with a logographic character
    has a reading segment that is a non-empty string without [.] and
    without [+]. *)
Theorem logographic_reading_segments (body toptext : JsString)
  (options : FuriganaOptions) (re : RegExp) (m : list JsString) :
  emphasisDotsIndicatorRegex_test toptext = false ->
  disabledRegex_test toptext = false ->
  bodyToRegex body = Normal (Some re) ->
  exec re (cleanFurigana toptext options) = Some m ->
  exists pairs,
    furigana body toptext options = Normal pairs
    /\ Forall (fun p => forall c rest,
                   fst p = c :: rest -> kanjiRegex_test c = true ->
                   exists s, snd p = JStr s /\ s <> []
                             /\ ~ In cDot s /\ ~ In cPlus s) pairs.
Proof.
  intros He Hd Hre Hm.
  rewrite bodyToRegex_value in Hre. inversion Hre; subst re.
  exists (matchedPairs m body). split.
  - unfold furigana. now rewrite He, matchFurigana_unfold, Hd, Hm.
  - apply matchedPairs_good in Hm.
    eapply Forall_impl; [|exact Hm].
    intros p (s & Hs & Hgood) c rest Hc Hk.
    destruct (Hgood c rest Hc Hk) as [Hne Hall].
    exists s. repeat split; [exact Hs | exact Hne | |];
      intros Hin; rewrite Forall_forall in Hall;
      apply Hall in Hin; discriminate Hin.
Qed.

Lemma logographic_reading_segments_witness :
  exists pairs,
    furigana Examples.kawaii_inu Examples.ka_wai_i_inu new_FuriganaOptions
    = Normal pairs
    /\ Forall (fun p => forall c rest,
                   fst p = c :: rest -> kanjiRegex_test c = true ->
                   exists s, snd p = JStr s /\ s <> []
                             /\ ~ In cDot s /\ ~ In cPlus s) pairs.
Proof.
  apply (logographic_reading_segments Examples.kawaii_inu Examples.ka_wai_i_inu
           new_FuriganaOptions (bodyRegex Examples.kawaii_inu)
           [ [0x304b; cDot; 0x308f; 0x3044; cDot; 0x3044; cDot; 0x3044; 0x306c];
             Examples.ka; [cDot]; Examples.wai; Examples.inu ]).
  - reflexivity.
  - reflexivity.
  - vm_compute; reflexivity.
  - vm_compute; reflexivity.
Defined.

(* ================================================================== *)
(** * Further properties of the code *)

(** ** The shape of the result *)

Lemma stringIterator_nonempty (s : JsString) :
  Forall (fun ch => ch <> []) (stringIterator s)
  /\ forall c, Forall (fun ch => ch <> []) (stringIterator (c :: s)).
Proof.
  induction s as [|d s [IH1 IH2]].
  - split; [constructor | intros c; repeat constructor; discriminate].
  - split; [apply IH2 |].
    intros c. change (stringIterator (c :: d :: s))
      with (if isHighSurrogate c && isLowSurrogate d
            then [c; d] :: stringIterator s
            else [c] :: stringIterator (d :: s)).
    destruct (isHighSurrogate c && isLowSurrogate d);
      constructor; try discriminate; [exact IH1 | apply IH2].
Qed.

Lemma stringIterator_nil (s : JsString) : stringIterator s = [] -> s = [].
Proof.
  destruct s as [|c [|d s]]; [reflexivity | discriminate |].
  change (stringIterator (c :: d :: s))
    with (if isHighSurrogate c && isLowSurrogate d
          then [c; d] :: stringIterator s
          else [c] :: stringIterator (d :: s)).
  destruct (isHighSurrogate c && isLowSurrogate d); discriminate.
Qed.

Lemma matchedPairs_not_nil (m : list JsString) (body : JsString) :
  matchedPairs m body <> [].
Proof. unfold matchedPairs. intros H. symmetry in H. exact (app_cons_not_nil _ _ _ H). Qed.

(** X1. The call returns no pair at all exactly when the reading starts
    with an asterisk and the body is empty; in every other case the result
    holds at least one pair. *)
Theorem furigana_nil_iff (body toptext : JsString) (options : FuriganaOptions) :
  furigana body toptext options = Normal []
  <-> emphasisDotsIndicatorRegex_test toptext = true /\ body = [].
Proof.
  unfold furigana.
  destruct (emphasisDotsIndicatorRegex_test toptext).
  - unfold rubifyEveryCharacter. split.
    + intros H. inversion H as [E]. apply map_eq_nil in E.
      apply stringIterator_nil in E. now split.
    + intros [_ ->]. reflexivity.
  - rewrite matchFurigana_unfold. split; [|intros [H _]; discriminate H].
    destruct (disabledRegex_test toptext); [discriminate|].
    destruct (exec _ _) as [m|]; [|discriminate].
    intros H. inversion H as [E]. now apply matchedPairs_not_nil in E.
Qed.

Lemma furigana_nil_iff_witness :
  furigana [] [0x2a; 0x2b] new_FuriganaOptions = Normal [].
Proof.
  apply (proj2 (furigana_nil_iff [] [0x2a; 0x2b] new_FuriganaOptions)).
  split; reflexivity.
Defined.

Lemma allKanji_snoc (b : JsString) (c : CodeUnit) :
  allKanji b -> kanjiRegex_test c = true -> allKanji (b ++ [c]).
Proof. intros. now apply Forall_snoc. Qed.

Lemma noKanji_snoc (b : JsString) (c : CodeUnit) :
  noKanji b -> kanjiRegex_test c = false -> noKanji (b ++ [c]).
Proof. intros. now apply Forall_snoc. Qed.

Lemma snoc_not_nil {A} (l : list A) (x : A) : l ++ [x] <> [].
Proof. destruct l; discriminate. Qed.

Lemma matchFurigana_step_uniform (m : list JsString) (c : CodeUnit)
  (st : LoopState) :
  Uniform st ->
  Uniform (matchFurigana_step m c st)
  /\ curBodyPart (matchFurigana_step m c st) <> [].
Proof.
  intros [Hres Hkj Hot]. unfold matchFurigana_step.
  destruct (kanjiRegex_test c) eqn:Kc.
  - assert (Hone : [c] <> [] /\ allKanji [c])
      by (split; [discriminate | repeat constructor; exact Kc]).
    destruct (lastType st) eqn:Lt; cbn [CharType_eqb orb].
    + (* after other *)
      split; [|discriminate]. constructor; cbn.
      * rewrite JsString_eqb_nil.
        destruct (curBodyPart st) as [|x t] eqn:Eb; cbn [negb]; [assumption|].
        apply Forall_snoc; [assumption|].
        destruct Hot as [Hn Ht]; [discriminate|].
        split; [discriminate | right; split; assumption].
      * intros _. exact Hone.
      * intros N. now contradiction N.
    + (* after a logographic character *)
      destruct (Hkj eq_refl) as [Hne Hall].
      destruct (strictEqStr _ _ || strictEqStr _ _).
      * split; [|apply snoc_not_nil]. constructor; cbn.
        -- assumption.
        -- intros _. split; [apply snoc_not_nil | now apply allKanji_snoc].
        -- intros N. now contradiction N.
      * split; [|discriminate]. constructor; cbn.
        -- apply Forall_snoc; [assumption|]. split; [assumption | now left].
        -- intros _. exact Hone.
        -- intros N. now contradiction N.
    + (* after a phonetic character *)
      split; [|discriminate]. constructor; cbn.
      * rewrite JsString_eqb_nil.
        destruct (curBodyPart st) as [|x t] eqn:Eb; cbn [negb]; [assumption|].
        apply Forall_snoc; [assumption|].
        destruct Hot as [Hn Ht]; [discriminate|].
        split; [discriminate | right; split; assumption].
      * intros _. exact Hone.
      * intros N. now contradiction N.
  - destruct (CharType_eqb (lastType st) kanji) eqn:Lk; cbn [negb].
    + assert (Lt : lastType st = kanji) by (destruct (lastType st); try discriminate; reflexivity).
      destruct (Hkj Lt) as [Hne Hall].
      split; [|discriminate]. constructor; cbn.
      * apply Forall_snoc; [assumption|]. split; [assumption | now left].
      * destruct (kanaRegex_test c); discriminate.
      * intros _. split; [repeat constructor; exact Kc | reflexivity].
    + assert (Nk : lastType st <> kanji).
      { intros E. rewrite E in Lk. discriminate. }
      destruct (Hot Nk) as [Hn Ht].
      split; [|apply snoc_not_nil]. constructor; cbn.
      * assumption.
      * intros E. now contradiction Nk.
      * intros _. split; [now apply noKanji_snoc | assumption].
Qed.

Lemma matchFurigana_loop_uniform (m : list JsString) (body : JsString) :
  forall st, Uniform st ->
             (body <> [] \/ curBodyPart st <> []) ->
             Uniform (matchFurigana_loop m body st)
             /\ curBodyPart (matchFurigana_loop m body st) <> [].
Proof.
  induction body as [|c body IH]; intros st Hu Hne; simpl.
  - split; [assumption|]. destruct Hne as [N|N]; [now contradiction N | assumption].
  - destruct (matchFurigana_step_uniform m c st Hu) as [Hu' Hne'].
    apply IH; [assumption | now right].
Qed.

Lemma initialState_uniform : Uniform initialState.
Proof.
  constructor; cbn.
  - constructor.
  - discriminate.
  - intros _. split; [constructor | reflexivity].
Qed.

Lemma matchedPairs_uniform (m : list JsString) (body : JsString) :
  body <> [] -> Forall uniformPair (matchedPairs m body).
Proof.
  intros Hne.
  destruct (matchFurigana_loop_uniform m body initialState
              initialState_uniform (or_introl Hne)) as [[Hres Hkj Hot] Hcur].
  unfold matchedPairs. apply Forall_snoc; [assumption|].
  split; [exact Hcur|]. cbn [fst snd].
  destruct (lastType (matchFurigana_loop m body initialState)) eqn:Lt.
  - right. apply Hot. discriminate.
  - left. now apply Hkj.
  - right. apply Hot. discriminate.
Qed.

(** X2. For a body that is not empty, no pair returned has an empty base
    segment, in any mode. *)
Theorem base_segments_nonempty (body toptext : JsString)
  (options : FuriganaOptions) :
  body <> [] ->
  exists pairs,
    furigana body toptext options = Normal pairs
    /\ Forall (fun p => fst p <> []) pairs.
Proof.
  intros Hne. unfold furigana.
  destruct (emphasisDotsIndicatorRegex_test toptext).
  - eexists; split; [reflexivity|].
    unfold rubifyEveryCharacter. apply Forall_map. cbn [fst].
    apply stringIterator_nonempty.
  - rewrite matchFurigana_unfold.
    destruct (disabledRegex_test toptext).
    + eexists; split; [reflexivity|]. repeat constructor. exact Hne.
    + destruct (exec _ _) as [m|].
      * eexists; split; [reflexivity|].
        eapply Forall_impl; [|apply (matchedPairs_uniform m body Hne)].
        intros p [H _]. exact H.
      * eexists; split; [reflexivity|]. repeat constructor. exact Hne.
Qed.

Lemma base_segments_nonempty_witness :
  exists pairs,
    furigana Examples.kawaii_inu Examples.ka_wai_i_inu new_FuriganaOptions
    = Normal pairs
    /\ Forall (fun p => fst p <> []) pairs.
Proof.
  apply (base_segments_nonempty Examples.kawaii_inu Examples.ka_wai_i_inu
           new_FuriganaOptions).
  discriminate.
Defined.

(** X3. When the pattern of the body matches, every pair returned is of
    one kind: its base segment is made of logographic characters
    only, or it holds none and the reading segment is the empty string. *)
Theorem matched_pairs_uniform (body toptext : JsString)
  (options : FuriganaOptions) (re : RegExp) (m : list JsString) :
  emphasisDotsIndicatorRegex_test toptext = false ->
  disabledRegex_test toptext = false ->
  bodyToRegex body = Normal (Some re) ->
  exec re (cleanFurigana toptext options) = Some m ->
  exists pairs,
    furigana body toptext options = Normal pairs
    /\ Forall (fun p =>
                 Forall (fun c => kanjiRegex_test c = true) (fst p)
                 \/ (Forall (fun c => kanjiRegex_test c = false) (fst p)
                     /\ snd p = JStr [])) pairs.
Proof.
  intros He Hd Hre Hm.
  rewrite bodyToRegex_value in Hre. inversion Hre; subst re.
  exists (matchedPairs m body). split.
  - unfold furigana. now rewrite He, matchFurigana_unfold, Hd, Hm.
  - destruct body as [|c body].
    + repeat constructor.
    + eapply Forall_impl;
        [|apply (matchedPairs_uniform m (c :: body)); discriminate].
      intros p [_ H]. exact H.
Qed.

Lemma matched_pairs_uniform_witness :
  exists pairs,
    furigana Examples.kawaii_inu Examples.ka_wai_i_inu new_FuriganaOptions
    = Normal pairs
    /\ Forall (fun p =>
                 Forall (fun c => kanjiRegex_test c = true) (fst p)
                 \/ (Forall (fun c => kanjiRegex_test c = false) (fst p)
                     /\ snd p = JStr [])) pairs.
Proof.
  apply (matched_pairs_uniform Examples.kawaii_inu Examples.ka_wai_i_inu
           new_FuriganaOptions (bodyRegex Examples.kawaii_inu)
           [ [0x304b; cDot; 0x308f; 0x3044; cDot; 0x3044; cDot; 0x3044; 0x306c];
             Examples.ka; [cDot]; Examples.wai; Examples.inu ]).
  - reflexivity.
  - reflexivity.
  - vm_compute; reflexivity.
  - vm_compute; reflexivity.
Defined.

(** ** Bodies without logographic characters *)

Lemma matchFurigana_loop_noKanji (m : list JsString) (body : JsString) :
  noKanji body ->
  forall st, lastType st <> kanji ->
    matchFurigana_loop m body st
    = {| result := result st;
         curBodyPart := curBodyPart st ++ body;
         curToptextPart := curToptextPart st;
         matchIndex := matchIndex st;
         lastType := lastType st |}.
Proof.
  induction 1 as [|c body Kc _ IH]; intros st Hlt; simpl.
  - rewrite app_nil_r. now destruct st.
  - assert (E : matchFurigana_step m c st
                = {| result := result st;
                     curBodyPart := curBodyPart st ++ [c];
                     curToptextPart := curToptextPart st;
                     matchIndex := matchIndex st;
                     lastType := lastType st |}).
    { unfold matchFurigana_step. rewrite Kc.
      destruct (lastType st); [reflexivity | now contradiction Hlt | reflexivity]. }
    rewrite E, IH by exact Hlt. cbn. now rewrite <- app_assoc.
Qed.

Lemma matchedPairs_noKanji (m : list JsString) (body : JsString) :
  noKanji body -> matchedPairs m body = [(body, JStr [])].
Proof.
  intros H. unfold matchedPairs.
  rewrite (matchFurigana_loop_noKanji m body H initialState) by discriminate.
  reflexivity.
Qed.

(** X4. A body without logographic characters gives exactly one pair, whose
    base segment is the whole body: with the empty reading segment when the
    pattern matches the cleaned reading (the reading is then dropped), with
    the reading as given when it does not. *)
Theorem plain_body_single_pair (body toptext : JsString)
  (options : FuriganaOptions) (re : RegExp) :
  Forall (fun c => kanjiRegex_test c = false) body ->
  emphasisDotsIndicatorRegex_test toptext = false ->
  disabledRegex_test toptext = false ->
  bodyToRegex body = Normal (Some re) ->
  furigana body toptext options
  = Normal [(body, JStr (match exec re (cleanFurigana toptext options) with
                         | Some _ => []
                         | None => toptext
                         end))].
Proof.
  intros Hb He Hd Hre.
  rewrite bodyToRegex_value in Hre. inversion Hre; subst re.
  unfold furigana. rewrite He, matchFurigana_unfold, Hd.
  destruct (exec _ _) as [m|]; [|reflexivity].
  now rewrite matchedPairs_noKanji.
Qed.

Lemma plain_body_single_pair_witness :
  furigana Examples.dakara Examples.dakara new_FuriganaOptions
  = Normal [(Examples.dakara, JStr [])]
  /\ furigana Examples.dakara Examples.ta_be_ru new_FuriganaOptions
     = Normal [(Examples.dakara, JStr Examples.ta_be_ru)].
Proof.
  split.
  - apply (plain_body_single_pair Examples.dakara Examples.dakara
             new_FuriganaOptions (bodyRegex Examples.dakara)).
    + repeat constructor.
    + reflexivity.
    + reflexivity.
    + vm_compute; reflexivity.
  - apply (plain_body_single_pair Examples.dakara Examples.ta_be_ru
             new_FuriganaOptions (bodyRegex Examples.dakara)).
    + repeat constructor.
    + reflexivity.
    + reflexivity.
    + vm_compute; reflexivity.
Defined.

Lemma bodyParts_other (body : JsString) :
  Forall (fun c => kanjiRegex_test c = false /\ kanaRegex_test c = false) body ->
  bodyParts other body = [].
Proof.
  induction 1 as [|c body [Kc Nc] _ IH]; simpl; [reflexivity|].
  now rewrite Kc, Nc, IH.
Qed.

Lemma exec_empty_pattern (input : JsString) (m : list JsString) :
  exec [PStart; PEnd] input = Some m -> input = [].
Proof.
  destruct input as [|x t]; [reflexivity|].
  unfold exec. cbn [execFrom matchParts].
  rewrite execFrom_later by reflexivity. discriminate.
Qed.

(** X5. A body made only of characters that are neither logographic nor
    phonetic (the empty body included) gives, for every reading without a
    leading marker, the one pair of the body and the reading as given: its
    pattern is "^$", which only the empty reading matches. *)
Theorem other_body_literal_pair (body toptext : JsString)
  (options : FuriganaOptions) :
  Forall (fun c => kanjiRegex_test c = false /\ kanaRegex_test c = false) body ->
  emphasisDotsIndicatorRegex_test toptext = false ->
  disabledRegex_test toptext = false ->
  bodyToRegex body = Normal (Some [PStart; PEnd])
  /\ furigana body toptext options = Normal [(body, JStr toptext)].
Proof.
  intros Hb He Hd.
  assert (Hre : bodyRegex body = [PStart; PEnd]).
  { unfold bodyRegex. now rewrite (bodyParts_other body Hb). }
  split; [now rewrite bodyToRegex_value, Hre|].
  unfold furigana. rewrite He, matchFurigana_unfold, Hd, Hre.
  destruct (exec _ _) as [m|] eqn:E; [|reflexivity].
  apply exec_empty_pattern in E.
  rewrite cleanFurigana_map in E. apply map_eq_nil in E. subst toptext.
  rewrite matchedPairs_noKanji; [reflexivity|].
  eapply Forall_impl; [|exact Hb]. intros c [H _]. exact H.
Qed.

Lemma other_body_literal_pair_witness :
  bodyToRegex (js "abc") = Normal (Some [PStart; PEnd])
  /\ furigana (js "abc") (js "x.y") new_FuriganaOptions
     = Normal [(js "abc", JStr (js "x.y"))].
Proof.
  apply (other_body_literal_pair (js "abc") (js "x.y") new_FuriganaOptions).
  - repeat constructor.
  - reflexivity.
  - reflexivity.
Defined.

(** ** [cleanFurigana] and the classes of the options *)

(** X6. Whatever the options, a cleaned reading is in canonical form: a
    separator left in it is [.] or [+], and a combinator left in it
    is [+]. *)
Theorem cleanFurigana_canonical (r : JsString) (options : FuriganaOptions) :
  Forall (fun d =>
            (ClassRegExp_test (separatorRegex options) d = true ->
             d = cDot \/ d = cPlus)
            /\ (ClassRegExp_test (combinatorRegex options) d = true ->
                d = cPlus))
         (cleanFurigana r options).
Proof.
  rewrite cleanFurigana_map. apply Forall_map, Forall_forall.
  intros c _. unfold cleanChar.
  destruct (ClassRegExp_test (separatorRegex options) c) eqn:Sc.
  - destruct (ClassRegExp_test (combinatorRegex options) cDot) eqn:Cd.
    + split; intros _; auto.
    + split; [intros _; auto | intros H; rewrite Cd in H; discriminate].
  - destruct (ClassRegExp_test (combinatorRegex options) c) eqn:Cc.
    + split; intros _; auto.
    + split; intros H; [rewrite Sc in H | rewrite Cc in H]; discriminate.
Qed.

(** X7. Cleaning works code unit by code unit: the cleaned reading has the
    length of the reading, and each of its code units is the one of the
    reading at that place, or [.] or [+] where that one was a separator or
    a combinator. *)
Theorem cleanFurigana_pointwise (r : JsString) (options : FuriganaOptions) :
  Forall2 (fun c d =>
             d = c
             \/ ((d = cDot \/ d = cPlus)
                 /\ (ClassRegExp_test (separatorRegex options) c = true
                     \/ ClassRegExp_test (combinatorRegex options) c = true)))
          r (cleanFurigana r options).
Proof.
  rewrite cleanFurigana_map.
  induction r as [|c r IH]; cbn [List.map]; constructor; [|exact IH].
  unfold cleanChar.
  destruct (ClassRegExp_test (separatorRegex options) c) eqn:Sc.
  - destruct (ClassRegExp_test (combinatorRegex options) cDot); auto.
  - destruct (ClassRegExp_test (combinatorRegex options) c) eqn:Cc; auto.
Qed.


(** ** What a successful match says of the reading *)

Section ClassMatchersSound.

Variable cls : CodeUnit -> bool.
Variable k : Continuation.

Lemma optionalClass_sound capture pos s caps r :
  optionalClass cls capture k pos s caps = Some r ->
  exists x s',
    s = x ++ s'
    /\ (x = [] \/ exists c, x = [c] /\ cls c = true)
    /\ k (pos + List.length x)%nat s' (if capture then caps ++ [x] else caps)
       = Some r.
Proof.
  unfold optionalClass. intros H.
  assert (Skip : k pos s (if capture then caps ++ [[]] else caps) = Some r ->
                 exists x s',
                   s = x ++ s'
                   /\ (x = [] \/ exists c, x = [c] /\ cls c = true)
                   /\ k (pos + List.length x)%nat s'
                        (if capture then caps ++ [x] else caps) = Some r).
  { intros E. exists [], s. cbn [List.length app]. rewrite Nat.add_0_r.
    repeat split; [now left | exact E]. }
  destruct s as [|c s']; [now apply Skip|].
  destruct (cls c) eqn:Hc; [|now apply Skip].
  destruct (k (S pos) s' _) as [r'|] eqn:E; [|now apply Skip].
  inversion H; subst r'. exists [c], s'. cbn [List.length app].
  rewrite Nat.add_1_r. repeat split; [right; eauto | exact E].
Qed.

Lemma repeatClass_sound s :
  forall acc pos caps r,
    repeatClass cls k acc pos s caps = Some r ->
    exists run s',
      s = run ++ s'
      /\ Forall (fun c => cls c = true) run
      /\ acc ++ run <> []
      /\ k (pos + List.length run)%nat s' (caps ++ [acc ++ run]) = Some r.
Proof.
  induction s as [|c s IH]; intros acc pos caps r H; simpl in H.
  - destruct acc as [|a acc]; [discriminate|].
    exists [], []. cbn [List.length app]. rewrite Nat.add_0_r, app_nil_r.
    repeat split; [constructor | discriminate | exact H].
  - assert (Stop : match acc with
                   | [] => None
                   | _ :: _ => k pos (c :: s) (caps ++ [acc])
                   end = Some r ->
                   exists run s',
                     c :: s = run ++ s'
                     /\ Forall (fun c => cls c = true) run
                     /\ acc ++ run <> []
                     /\ k (pos + List.length run)%nat s' (caps ++ [acc ++ run])
                        = Some r).
    { destruct acc as [|a acc]; [discriminate|]. intros E.
      exists [], (c :: s). cbn [List.length app]. rewrite Nat.add_0_r, app_nil_r.
      repeat split; [constructor | discriminate | exact E]. }
    destruct (cls c) eqn:Hc; [|now apply Stop].
    destruct (repeatClass cls k (acc ++ [c]) (S pos) s caps) as [r'|] eqn:E;
      [|now apply Stop].
    inversion H; subst r'.
    apply IH in E. destruct E as (run & s' & -> & Hrun & Hne & E).
    exists (c :: run), s'. cbn [List.length app].
    rewrite <- app_assoc in Hne, E. cbn [app] in Hne, E.
    rewrite Nat.add_succ_r.
    repeat split; [constructor; assumption | exact Hne | exact E].
Qed.

(** The greedy step, when the run of the class ends the input or stops at a
    code unit outside the class, and the rest of the pattern matches there. *)
Lemma repeatClass_run run :
  forall acc pos caps rest r,
    Forall (fun c => cls c = true) run ->
    match rest with [] => True | c :: _ => cls c = false end ->
    acc ++ run <> [] ->
    k (pos + List.length run)%nat rest (caps ++ [acc ++ run]) = Some r ->
    repeatClass cls k acc pos (run ++ rest) caps = Some r.
Proof.
  induction run as [|c run IH]; intros acc pos caps rest r Hrun Hrest Hne Hk.
  - cbn [app List.length] in *. rewrite Nat.add_0_r, app_nil_r in *.
    destruct acc as [|a acc]; [now contradiction Hne|].
    destruct rest as [|d rest]; simpl; [exact Hk|]. now rewrite Hrest.
  - inversion Hrun as [|? ? Hc Hrun']; subst.
    cbn [app repeatClass]. rewrite Hc.
    rewrite (IH (acc ++ [c]) (S pos) caps rest r); auto.
    + rewrite <- app_assoc. exact Hne.
    + rewrite <- app_assoc. cbn [app List.length] in *.
      now rewrite Nat.add_succ_r in Hk.
Qed.

End ClassMatchersSound.

Lemma isDot_cases (c : CodeUnit) : isDot c = true -> c = cDot.
Proof. unfold isDot. now rewrite Z.eqb_eq. Qed.

Lemma matchParts_sound (re : RegExp) :
  forall pos s caps e caps',
    matchParts re pos s caps = Some (e, caps') ->
    exists used rest new,
      s = used ++ rest
      /\ caps' = caps ++ new
      /\ e = (pos + List.length used)%nat
      /\ Parses re used new
      /\ (In PEnd re -> rest = []).
Proof.
  induction re as [|p re IH]; intros pos s caps e caps' H.
  - inversion H; subst. exists [], s, []. cbn [List.length app].
    rewrite Nat.add_0_r, app_nil_r.
    repeat split; [constructor | intros []].
  - destruct p; cbn [matchParts] in H.
    + destruct pos; [|discriminate]. apply IH in H.
      destruct H as (used & rest & new & -> & -> & -> & HP & Hend).
      exists used, rest, new. repeat split; [now constructor|].
      intros [N|N]; [discriminate | auto].
    + destruct s; [|discriminate]. apply IH in H.
      destruct H as (used & rest & new & Hs & -> & -> & HP & Hend).
      symmetry in Hs. apply app_eq_nil in Hs. destruct Hs as [-> ->].
      exists [], [], new. repeat split. now constructor.
    + apply optionalClass_sound in H. destruct H as (x & s' & -> & Hx & H).
      apply IH in H.
      destruct H as (used & rest & new & -> & -> & -> & HP & Hend).
      exists (x ++ used), rest, (x :: new).
      rewrite <- !app_assoc, length_app, Nat.add_assoc.
      repeat split.
      * constructor; [|exact HP].
        destruct Hx as [->|(c & -> & Hc)]; [now left|].
        apply isPlusOrDot_cases in Hc. destruct Hc as [->| ->]; auto.
      * intros [N|N]; [discriminate | auto].
    + apply optionalClass_sound in H. destruct H as (x & s' & -> & Hx & H).
      apply IH in H.
      destruct H as (used & rest & new & -> & -> & -> & HP & Hend).
      exists (x ++ used), rest, new.
      rewrite <- !app_assoc, length_app, Nat.add_assoc.
      repeat split.
      * constructor; [|exact HP].
        destruct Hx as [->|(c & -> & Hc)]; [now left|].
        apply isPlusOrDot_cases in Hc. destruct Hc as [->| ->]; auto.
      * intros [N|N]; [discriminate | auto].
    + apply optionalClass_sound in H. destruct H as (x & s' & -> & Hx & H).
      apply IH in H.
      destruct H as (used & rest & new & -> & -> & -> & HP & Hend).
      exists (x ++ used), rest, new.
      rewrite <- !app_assoc, length_app, Nat.add_assoc.
      repeat split.
      * constructor; [|exact HP].
        destruct Hx as [->|(c & -> & Hc)]; [now left|].
        apply isDot_cases in Hc. subst c. now right.
      * intros [N|N]; [discriminate | auto].
    + apply repeatClass_sound in H.
      destruct H as (run & s' & -> & Hrun & Hne & H). cbn [app] in Hne, H.
      apply IH in H.
      destruct H as (used & rest & new & -> & -> & -> & HP & Hend).
      exists (run ++ used), rest, (run :: new).
      rewrite <- !app_assoc, length_app, Nat.add_assoc.
      repeat split.
      * constructor; [split; assumption | exact HP].
      * intros [N|N]; [discriminate | auto].
    + destruct s as [|d s']; [discriminate|].
      destruct (Z.eqb_spec d c) as [->|]; [|discriminate]. apply IH in H.
      destruct H as (used & rest & new & -> & -> & -> & HP & Hend).
      exists (c :: used), rest, new. cbn [List.length app].
      rewrite Nat.add_succ_r.
      repeat split; [now constructor|].
      intros [N|N]; [discriminate | auto].
Qed.

(** A pattern anchored at both ends matches the whole input or nothing. *)
Lemma exec_anchored (re : RegExp) (input : JsString) (m : list JsString) :
  hd_error re = Some PStart -> In PEnd re ->
  exec re input = Some m ->
  exists caps, m = input :: caps /\ Parses re input caps.
Proof.
  intros Hstart Hend H. unfold exec in H.
  assert (Hit : forall e caps,
            matchParts re 0%nat input [] = Some (e, caps) ->
            firstn (e - 0)%nat input = input /\ Parses re input caps).
  { intros e caps E. apply matchParts_sound in E.
    destruct E as (used & rest & new & Hs & -> & -> & HP & Hrest).
    rewrite (Hrest Hend), app_nil_r in Hs. subst used.
    cbn [app Nat.add]. rewrite Nat.sub_0_r, firstn_all. now split. }
  destruct input as [|c input]; cbn [execFrom] in H.
  - destruct (matchParts re 0%nat [] []) as [[e caps]|] eqn:E; [|discriminate].
    destruct (Hit e caps eq_refl) as [Hw HP].
    inversion H; subst m. exists caps. rewrite Hw. now split.
  - destruct (matchParts re 0%nat (c :: input) []) as [[e caps]|] eqn:E.
    + destruct (Hit e caps eq_refl) as [Hw HP].
      inversion H; subst m. exists caps. rewrite Hw. now split.
    + rewrite execFrom_later in H by exact Hstart. discriminate.
Qed.

Lemma exec_bodyRegex_parses (body input : JsString) (m : list JsString) :
  exec (bodyRegex body) input = Some m ->
  exists caps, m = input :: caps /\ Parses (bodyRegex body) input caps.
Proof.
  apply exec_anchored; [reflexivity|].
  unfold bodyRegex. right. apply in_or_app. right. now left.
Qed.

Lemma filter_mark (x : JsString) :
  x = [] \/ x = [cPlus] \/ x = [cDot] -> List.filter notPlusOrDot x = [].
Proof. intros [->|[->| ->]]; reflexivity. Qed.

Lemma filter_furiganaText (x : JsString) :
  furiganaText x -> List.filter notPlusOrDot x = x.
Proof.
  intros [_ H]. induction H as [|c x Hc _ IH]; [reflexivity|].
  simpl. now rewrite Hc, IH.
Qed.

Lemma kana_notPlusOrDot (c : CodeUnit) :
  kanaRegex_test c = true -> notPlusOrDot c = true.
Proof.
  intros H. apply kana_lower_bound in H.
  unfold notPlusOrDot, isPlusOrDot, cPlus, cDot.
  replace (c =? 43) with false by (symmetry; apply Z.eqb_neq; lia).
  replace (c =? 46) with false by (symmetry; apply Z.eqb_neq; lia).
  reflexivity.
Qed.

Lemma Parses_inv_start re s caps :
  Parses (PStart :: re) s caps -> Parses re s caps.
Proof. intros H; inversion H; subst; auto. Qed.

Lemma Parses_inv_end re s caps :
  Parses (PEnd :: re) s caps -> s = [] /\ Parses re [] caps.
Proof. intros H; inversion H; subst; auto. Qed.

Lemma Parses_inv_sepGroup re s caps :
  Parses (PSepGroup :: re) s caps ->
  exists x s' caps',
    s = x ++ s' /\ caps = x :: caps'
    /\ (x = [] \/ x = [cPlus] \/ x = [cDot]) /\ Parses re s' caps'.
Proof. intros H; inversion H; subst; eauto 10. Qed.

Lemma Parses_inv_sep re s caps :
  Parses (PSep :: re) s caps ->
  exists x s',
    s = x ++ s' /\ (x = [] \/ x = [cPlus] \/ x = [cDot]) /\ Parses re s' caps.
Proof. intros H; inversion H; subst; eauto 10. Qed.

Lemma Parses_inv_dot re s caps :
  Parses (PDot :: re) s caps ->
  exists x s', s = x ++ s' /\ (x = [] \/ x = [cDot]) /\ Parses re s' caps.
Proof. intros H; inversion H; subst; eauto 10. Qed.

Lemma Parses_inv_furigana re s caps :
  Parses (PFurigana :: re) s caps ->
  exists x s' caps',
    s = x ++ s' /\ caps = x :: caps' /\ furiganaText x /\ Parses re s' caps'.
Proof. intros H; inversion H; subst; eauto 10. Qed.

Lemma Parses_inv_char re c s caps :
  Parses (PChar c :: re) s caps ->
  exists s', s = c :: s' /\ Parses re s' caps.
Proof. intros H; inversion H; subst; eauto. Qed.

(** The input a pattern of a body matches, without its marks, is the
    reading the body spells with the captures. *)
Lemma Parses_readingText (body : JsString) :
  forall lastType s caps,
    Parses (bodyParts lastType body ++ [PEnd]) s caps ->
    List.filter notPlusOrDot s
    = readingText (CharType_eqb lastType kanji) body caps.
Proof.
  induction body as [|c body IH]; intros lt s caps H.
  - cbn in H. apply Parses_inv_end in H. destruct H as [-> H].
    reflexivity.
  - cbn [bodyParts readingText] in *.
    destruct (kanjiRegex_test c) eqn:Kc; [|destruct (kanaRegex_test c) eqn:Nc].
    + destruct lt; cbn [CharType_eqb negb app] in *.
      * apply Parses_inv_furigana in H.
        destruct H as (x & s' & caps' & -> & -> & Hx & H').
        rewrite filter_app, (filter_furiganaText x Hx). f_equal.
        exact (IH kanji s' caps' H').
      * apply Parses_inv_sepGroup in H.
        destruct H as (y & s1 & caps1 & -> & -> & Hy & H1).
        apply Parses_inv_furigana in H1.
        destruct H1 as (x & s' & caps' & -> & -> & Hx & H').
        rewrite !filter_app, (filter_mark y Hy), (filter_furiganaText x Hx).
        cbn [List.tl app]. f_equal. exact (IH kanji s' caps' H').
      * apply Parses_inv_sep in H.
        destruct H as (y & s1 & -> & Hy & H1).
        apply Parses_inv_furigana in H1.
        destruct H1 as (x & s' & caps' & -> & -> & Hx & H').
        rewrite !filter_app, (filter_mark y Hy), (filter_furiganaText x Hx).
        cbn [app]. f_equal. exact (IH kanji s' caps' H').
    + assert (Hc := kana_notPlusOrDot c Nc).
      destruct lt; cbn [CharType_eqb negb app] in *.
      * apply Parses_inv_char in H. destruct H as (s' & -> & H').
        cbn [List.filter]. rewrite Hc. f_equal. exact (IH kana s' caps H').
      * apply Parses_inv_sep in H.
        destruct H as (y & s1 & -> & Hy & H1).
        apply Parses_inv_char in H1. destruct H1 as (s' & -> & H').
        rewrite filter_app, (filter_mark y Hy). cbn [app List.filter].
        rewrite Hc. f_equal. exact (IH kana s' caps H').
      * apply Parses_inv_char in H. destruct H as (s' & -> & H').
        cbn [List.filter]. rewrite Hc. f_equal. exact (IH kana s' caps H').
    + destruct lt; cbn [CharType_eqb negb app] in *.
      * exact (IH other s caps H).
      * apply Parses_inv_dot in H. destruct H as (y & s' & -> & Hy & H').
        rewrite filter_app.
        replace (List.filter notPlusOrDot y) with (@nil CodeUnit)
          by (destruct Hy as [->| ->]; reflexivity).
        exact (IH other s' caps H').
      * apply Parses_inv_dot in H. destruct H as (y & s' & -> & Hy & H').
        rewrite filter_app.
        replace (List.filter notPlusOrDot y) with (@nil CodeUnit)
          by (destruct Hy as [->| ->]; reflexivity).
        exact (IH other s' caps H').
Qed.

Lemma Parses_bodyRegex_readingText (body s : JsString) (caps : Captures) :
  Parses (bodyRegex body) s caps ->
  List.filter notPlusOrDot s = readingText false body caps.
Proof.
  unfold bodyRegex. intros H. inversion H; subst.
  now apply (Parses_readingText body other).
Qed.

Lemma spellPair_plain (b : JsString) (v : JsVal) :
  (forall c rest, b = c :: rest -> kanjiRegex_test c = false) ->
  spellPair (@pair JsString JsVal b v) = List.filter kanaRegex_test b.
Proof.
  intros H. unfold spellPair. cbn [fst snd].
  destruct b as [|c rest]; [reflexivity|]. now rewrite (H c rest eq_refl).
Qed.

Lemma spellPair_kanji (c : CodeUnit) (rest s : JsString) :
  kanjiRegex_test c = true ->
  spellPair (@pair JsString JsVal (c :: rest) (JStr s)) = s.
Proof. intros H. unfold spellPair. cbn. now rewrite H. Qed.

Ltac spell_snoc :=
  rewrite map_app, concat_app; cbn [List.map List.concat]; rewrite app_nil_r.

Lemma matchFurigana_step_spelled (m : list JsString) (c : CodeUnit)
  (body : JsString) (st : LoopState) :
  StateOK st -> InStep m (c :: body) st ->
  spelled (matchFurigana_step m c st)
  ++ readingText (CharType_eqb (lastType (matchFurigana_step m c st)) kanji)
       body (skipn (matchIndex (matchFurigana_step m c st)) m)
  = spelled st
    ++ readingText (CharType_eqb (lastType st) kanji) (c :: body)
         (skipn (matchIndex st) m).
Proof.
  intros [Hres Hcur Hkj Hot] Hstep.
  unfold InStep in Hstep. unfold matchFurigana_step, spelled.
  cbn [bodyGroups readingText] in *.
  destruct (kanjiRegex_test c) eqn:Kc.
  - destruct (lastType st) eqn:Lt; cbn [CharType_eqb orb] in *.
    + inversion Hstep as [|g x gs t Hx Ht Eg Et]; subst.
      symmetry in Et. try rewrite Et.
      apply skipn_cons_index in Et. destruct Et as [Ei Es].
      rewrite Ei. cbn [result curBodyPart curToptextPart matchIndex lastType
                       CharType_eqb].
      rewrite Es, (spellPair_kanji c [] x Kc), JsString_eqb_nil.
      rewrite (spellPair_plain (curBodyPart st) (curToptextPart st))
        by (apply Hot; discriminate).
      destruct (curBodyPart st) as [|b0 bt] eqn:Eb; cbn [negb].
      * cbn [List.filter]. now rewrite !app_nil_r, <- !app_assoc.
      * spell_snoc.
        rewrite (spellPair_plain (b0 :: bt) (curToptextPart st))
          by (intros c' r E; apply (Hot ltac:(discriminate) c' r E)).
        now rewrite <- !app_assoc.
    + inversion Hstep as [|g x gs t Hx Ht' Eg Et]; subst.
      inversion Ht' as [|g' y gs' t' Hy Ht Eg' Et']; subst.
      symmetry in Et. try rewrite Et.
      apply skipn_cons_index in Et. destruct Et as [Ei Es].
      assert (Es' := Es). apply skipn_cons_index in Es'. destruct Es' as [Ei' Es'].
      rewrite Ei, Ei'.
      destruct (Hkj eq_refl) as (c0 & rest0 & Eb & K0).
      destruct Hcur as (s & Etop & Htop). cbn in Etop. rewrite Etop, Eb.
      cbn [List.tl].
      destruct (strictEqStr (JStr x) (js "+") || strictEqStr (JStr x) []);
        cbn [result curBodyPart curToptextPart matchIndex lastType
             CharType_eqb jsAdd ToString app];
        rewrite Es'.
      * rewrite (spellPair_kanji c0 (rest0 ++ [c]) (s ++ y) K0).
        rewrite (spellPair_kanji c0 rest0 s K0).
        now rewrite <- !app_assoc.
      * spell_snoc. rewrite (spellPair_kanji c [] y Kc).
        rewrite (spellPair_kanji c0 rest0 s K0).
        now rewrite <- !app_assoc.
    + inversion Hstep as [|g x gs t Hx Ht Eg Et]; subst.
      symmetry in Et. try rewrite Et.
      apply skipn_cons_index in Et. destruct Et as [Ei Es].
      rewrite Ei. cbn [result curBodyPart curToptextPart matchIndex lastType
                       CharType_eqb].
      rewrite Es, (spellPair_kanji c [] x Kc), JsString_eqb_nil.
      rewrite (spellPair_plain (curBodyPart st) (curToptextPart st))
        by (apply Hot; discriminate).
      destruct (curBodyPart st) as [|b0 bt] eqn:Eb; cbn [negb].
      * cbn [List.filter]. now rewrite !app_nil_r, <- !app_assoc.
      * spell_snoc.
        rewrite (spellPair_plain (b0 :: bt) (curToptextPart st))
          by (intros c' r E; apply (Hot ltac:(discriminate) c' r E)).
        now rewrite <- !app_assoc.
  - assert (Hone : spellPair (@pair JsString JsVal [c] (JStr []))
                   = if kanaRegex_test c then [c] else []).
    { unfold spellPair. cbn. rewrite Kc. now destruct (kanaRegex_test c). }
    destruct (CharType_eqb (lastType st) kanji) eqn:Lk; cbn [negb].
    + cbn [result curBodyPart curToptextPart matchIndex lastType].
      spell_snoc. rewrite Hone.
      replace (CharType_eqb (if kanaRegex_test c then kana else other) kanji)
        with false by now destruct (kanaRegex_test c).
      now rewrite <- !app_assoc.
    + assert (Nk : lastType st <> kanji).
      { intros E. rewrite E in Lk. discriminate. }
      cbn [result curBodyPart curToptextPart matchIndex lastType].
      rewrite Lk.
      rewrite (spellPair_plain (curBodyPart st) (curToptextPart st))
        by (apply Hot; exact Nk).
      rewrite (spellPair_plain (curBodyPart st ++ [c]) (curToptextPart st)).
      * rewrite filter_app. cbn [List.filter].
        destruct (kanaRegex_test c); now rewrite <- !app_assoc.
      * intros c' r E. destruct (curBodyPart st) as [|b0 bt] eqn:Eb.
        -- inversion E; subst. exact Kc.
        -- inversion E; subst. exact (Hot Nk c' bt eq_refl).
Qed.

Lemma matchFurigana_loop_spelled (m : list JsString) (body : JsString) :
  forall st, StateOK st -> InStep m body st ->
    spelled (matchFurigana_loop m body st)
    = spelled st
      ++ readingText (CharType_eqb (lastType st) kanji) body
           (skipn (matchIndex st) m).
Proof.
  induction body as [|c body IH]; intros st Hok Hstep.
  - cbn. now rewrite app_nil_r.
  - cbn [matchFurigana_loop].
    destruct (matchFurigana_step_ok m c body st Hok Hstep) as [Hok' Hstep'].
    rewrite (IH _ Hok' Hstep').
    exact (matchFurigana_step_spelled m c body st Hok Hstep).
Qed.

Lemma matchedPairs_spelled (body input : JsString) (m : list JsString) :
  exec (bodyRegex body) input = Some m ->
  List.concat (List.map spellPair (matchedPairs m body))
  = List.filter notPlusOrDot input.
Proof.
  intros H.
  destruct (exec_bodyRegex_captures body input m H) as (whole & caps & E & Hcaps).
  destruct (exec_bodyRegex_parses body input m H) as (caps' & E' & HP).
  rewrite E in E'. inversion E'; subst whole caps'. subst m.
  assert (L := matchFurigana_loop_spelled (input :: caps) body initialState
                 initialState_ok Hcaps).
  unfold spelled in L. unfold matchedPairs. spell_snoc. rewrite L.
  cbn. symmetry. now apply Parses_bodyRegex_readingText.
Qed.

(** X9. When the pattern of the body matches, nothing of the reading is
    lost or added: the reading segments of the pairs that start with a
    logographic character and the phonetic characters of the other pairs,
    taken in order, spell the cleaned reading without its [.] and [+]. *)
Theorem matched_reading_spelled (body toptext : JsString)
  (options : FuriganaOptions) (re : RegExp) (m : list JsString) :
  emphasisDotsIndicatorRegex_test toptext = false ->
  disabledRegex_test toptext = false ->
  bodyToRegex body = Normal (Some re) ->
  exec re (cleanFurigana toptext options) = Some m ->
  exists pairs,
    furigana body toptext options = Normal pairs
    /\ List.concat (List.map spellPair pairs)
       = List.filter notPlusOrDot (cleanFurigana toptext options).
Proof.
  intros He Hd Hre Hm.
  rewrite bodyToRegex_value in Hre. inversion Hre; subst re.
  exists (matchedPairs m body). split.
  - unfold furigana. now rewrite He, matchFurigana_unfold, Hd, Hm.
  - now apply matchedPairs_spelled.
Qed.

Lemma matched_reading_spelled_witness :
  exists pairs,
    furigana Examples.kawaii_inu Examples.ka_wai_i_inu new_FuriganaOptions
    = Normal pairs
    /\ List.concat (List.map spellPair pairs)
       = List.filter notPlusOrDot
           (cleanFurigana Examples.ka_wai_i_inu new_FuriganaOptions).
Proof.
  apply (matched_reading_spelled Examples.kawaii_inu Examples.ka_wai_i_inu
           new_FuriganaOptions (bodyRegex Examples.kawaii_inu)
           [ [0x304b; cDot; 0x308f; 0x3044; cDot; 0x3044; cDot; 0x3044; 0x306c];
             Examples.ka; [cDot]; Examples.wai; Examples.inu ]).
  - reflexivity.
  - reflexivity.
  - vm_compute; reflexivity.
  - vm_compute; reflexivity.
Defined.

(** X10. The pattern of a body matches a whole input or nothing: the first
    entry of the array [exec] returns is the input itself. *)
Theorem exec_matches_whole_input (body input : JsString) (re : RegExp)
  (m : list JsString) :
  bodyToRegex body = Normal (Some re) ->
  exec re input = Some m ->
  hd_error m = Some input.
Proof.
  intros Hre Hm. rewrite bodyToRegex_value in Hre. inversion Hre; subst re.
  apply exec_bodyRegex_parses in Hm. destruct Hm as (caps & -> & _).
  reflexivity.
Qed.

Lemma exec_matches_whole_input_witness :
  hd_error [ [0x304b; cDot; 0x308f; 0x3044; cDot; 0x3044; cDot; 0x3044; 0x306c];
             Examples.ka; [cDot]; Examples.wai; Examples.inu ]
  = Some [0x304b; cDot; 0x308f; 0x3044; cDot; 0x3044; cDot; 0x3044; 0x306c].
Proof.
  apply (exec_matches_whole_input Examples.kawaii_inu
           [0x304b; cDot; 0x308f; 0x3044; cDot; 0x3044; cDot; 0x3044; 0x306c]
           (bodyRegex Examples.kawaii_inu)).
  - vm_compute; reflexivity.
  - vm_compute; reflexivity.
Defined.

(** ** Runs of logographic characters *)

Lemma bodyParts_kanji_cons (lt : CharType) (c : CodeUnit) (body : JsString) :
  kanjiRegex_test c = true ->
  bodyParts lt (c :: body)
  = (if CharType_eqb lt kanji then [PSepGroup]
     else if CharType_eqb lt kana then [PSep] else [])
    ++ PFurigana :: bodyParts kanji body.
Proof. intros H. cbn [bodyParts]. now rewrite H. Qed.

Lemma matchFurigana_loop_merge (m : list JsString) (ks : JsString) :
  allKanji ks ->
  forall st s caps top,
    lastType st = kanji ->
    curToptextPart st = JStr top ->
    skipn (matchIndex st) m = caps ->
    Parses (bodyParts kanji ks ++ [PEnd]) s caps ->
    ~ In cDot s ->
    result (matchFurigana_loop m ks st) = result st
    /\ curBodyPart (matchFurigana_loop m ks st) = curBodyPart st ++ ks
    /\ curToptextPart (matchFurigana_loop m ks st)
       = JStr (top ++ List.filter notPlusOrDot s).
Proof.
  induction 1 as [|k ks Kk _ IH]; intros st s caps top Hlt Htop Hskip HP Hdot.
  - cbn in HP. apply Parses_inv_end in HP. destruct HP as [-> _].
    cbn. now rewrite !app_nil_r.
  - rewrite (bodyParts_kanji_cons kanji k ks Kk) in HP. cbn [CharType_eqb app] in HP.
    apply Parses_inv_sepGroup in HP.
    destruct HP as (x & s1 & caps1 & -> & -> & Hx & HP).
    apply Parses_inv_furigana in HP.
    destruct HP as (y & s2 & caps2 & -> & -> & Hy & HP).
    apply skipn_cons_index in Hskip. destruct Hskip as [Ei Es].
    assert (Es' := Es). apply skipn_cons_index in Es'. destruct Es' as [Ei' Es'].
    assert (Hconn : strictEqStr (JStr x) (js "+") || strictEqStr (JStr x) [] = true).
    { destruct Hx as [->|[->| ->]]; [reflexivity | reflexivity |].
      exfalso. apply Hdot. now left. }
    cbn [matchFurigana_loop].
    assert (E : matchFurigana_step m k st
                = {| result := result st;
                     curBodyPart := curBodyPart st ++ [k];
                     curToptextPart := JStr (top ++ y);
                     matchIndex := S (S (matchIndex st));
                     lastType := kanji |}).
    { unfold matchFurigana_step. rewrite Kk, Hlt. cbn [CharType_eqb orb].
      now rewrite Ei, Ei', Hconn, Htop. }
    rewrite E.
    destruct (IH {| result := result st;
                    curBodyPart := curBodyPart st ++ [k];
                    curToptextPart := JStr (top ++ y);
                    matchIndex := S (S (matchIndex st));
                    lastType := kanji |}
                 s2 caps2 (top ++ y) eq_refl eq_refl Es' HP) as (R & B & T).
    { intros N. apply Hdot. apply in_or_app. right. apply in_or_app. now right. }
    rewrite R, B, T. cbn [result curBodyPart].
    rewrite !filter_app, (filter_mark x Hx), (filter_furiganaText y Hy).
    rewrite <- !app_assoc. repeat split.
Qed.

(** X11. For a body of logographic characters only, when the pattern
    matches a cleaned reading that holds no [.], the characters are not
    split: the result is the one pair of the whole body and the cleaned
    reading without its [+]. *)
Theorem kanji_run_merged (body toptext : JsString) (options : FuriganaOptions)
  (re : RegExp) (m : list JsString) :
  body <> [] ->
  Forall (fun c => kanjiRegex_test c = true) body ->
  emphasisDotsIndicatorRegex_test toptext = false ->
  disabledRegex_test toptext = false ->
  bodyToRegex body = Normal (Some re) ->
  exec re (cleanFurigana toptext options) = Some m ->
  ~ In cDot (cleanFurigana toptext options) ->
  furigana body toptext options
  = Normal [(body, JStr (List.filter notPlusOrDot
                           (cleanFurigana toptext options)))].
Proof.
  intros Hne Hall He Hd Hre Hm Hdot.
  rewrite bodyToRegex_value in Hre. inversion Hre; subst re.
  unfold furigana. rewrite He, matchFurigana_unfold, Hd, Hm. f_equal.
  destruct body as [|k ks]; [now contradiction Hne|].
  inversion Hall as [|? ? Kk Hks]; subst.
  apply exec_bodyRegex_parses in Hm. destruct Hm as (caps & -> & HP).
  unfold bodyRegex in HP. apply Parses_inv_start in HP. rename HP into HP'.
  rewrite (bodyParts_kanji_cons other k ks Kk) in HP'.
  cbn [CharType_eqb app] in HP'.
  apply Parses_inv_furigana in HP'.
  destruct HP' as (y & s2 & caps2 & Hs & -> & Hy & HP').
  rewrite Hs in *.
  unfold matchedPairs. cbn [matchFurigana_loop].
  match goal with
  | |- context [matchFurigana_step ?mm k initialState] => set (m := mm)
  end.
  assert (E : matchFurigana_step m k initialState
              = {| result := [];
                   curBodyPart := [k];
                   curToptextPart := JStr y;
                   matchIndex := 2;
                   lastType := kanji |}).
  { unfold matchFurigana_step. rewrite Kk. reflexivity. }
  rewrite E.
  destruct (matchFurigana_loop_merge m ks Hks
              {| result := [];
                 curBodyPart := [k];
                 curToptextPart := JStr y;
                 matchIndex := 2;
                 lastType := kanji |}
              s2 caps2 y eq_refl eq_refl eq_refl HP') as (R & B & T).
  { intros N. apply Hdot. apply in_or_app. now right. }
  rewrite R, B, T. cbn [result curBodyPart app].
  now rewrite filter_app, (filter_furiganaText y Hy).
Qed.

Lemma kanji_run_merged_witness :
  furigana [0x53ef; 0x611b] [0x304b; 0xff0b; 0x308f; 0x3044] new_FuriganaOptions
  = Normal [([0x53ef; 0x611b],
             JStr (List.filter notPlusOrDot
                     (cleanFurigana [0x304b; 0xff0b; 0x308f; 0x3044]
                                    new_FuriganaOptions)))].
Proof.
  apply (kanji_run_merged [0x53ef; 0x611b] [0x304b; 0xff0b; 0x308f; 0x3044]
           new_FuriganaOptions (bodyRegex [0x53ef; 0x611b])
           [ [0x304b; cPlus; 0x308f; 0x3044]; [0x304b]; [cPlus];
             [0x308f; 0x3044] ]).
  - discriminate.
  - repeat constructor.
  - reflexivity.
  - reflexivity.
  - vm_compute; reflexivity.
  - vm_compute; reflexivity.
  - vm_compute. intros [H|[H|[H|[H|[]]]]]; discriminate H.
Defined.

(** ** Readings with a mark at every boundary *)

Lemma matchParts_marked (l : list Segment) :
  Forall goodSegment l ->
  forall r1 pos caps,
    furiganaText r1 ->
    matchParts (PFurigana
                  :: flat_map (fun _ : Segment => [PSepGroup; PFurigana]) l
                  ++ [PEnd])
               pos (markedText r1 l) caps
    = Some ((pos + List.length (markedText r1 l))%nat,
            caps ++ r1 :: flat_map (fun e => [[seg_mark e]; seg_reading e]) l).
Proof.
  induction 1 as [|e l (Ke & Me & Re) _ IH]; intros r1 pos caps [Hne Hall];
    cbn [matchParts]; unfold markedText; cbn [flat_map app].
  - apply repeatClass_run; [exact Hall | exact I | exact Hne |].
    cbn [app]. rewrite app_nil_r. reflexivity.
  - apply repeatClass_run; [exact Hall | | exact Hne |].
    + unfold notPlusOrDot, isPlusOrDot.
      destruct Me as [-> | ->]; reflexivity.
    + cbn [app matchParts]. unfold optionalClass.
      replace (isPlusOrDot (seg_mark e)) with true
        by (unfold isPlusOrDot; destruct Me as [-> | ->]; reflexivity).
      specialize (IH (seg_reading e) (S (pos + List.length r1))
                     ((caps ++ [r1]) ++ [[seg_mark e]]) Re).
      unfold markedText in IH. cbn [matchParts] in IH.
      match goal with
      | |- match ?X with Some _ => _ | None => _ end = _ =>
          match type of IH with _ = ?R => change (X = R) in IH end;
          rewrite IH
      end.
      f_equal. f_equal.
      * rewrite !length_app. cbn [List.length]. rewrite !length_app. lia.
      * now rewrite <- !app_assoc.
Qed.

Lemma bodyParts_kanji_run (l : list Segment) :
  Forall goodSegment l ->
  bodyParts kanji (List.map seg_kanji l)
  = flat_map (fun _ : Segment => [PSepGroup; PFurigana]) l.
Proof.
  induction 1 as [|e l (Ke & _) _ IH]; [reflexivity|].
  cbn [List.map flat_map]. rewrite (bodyParts_kanji_cons kanji _ _ Ke), IH.
  reflexivity.
Qed.

Lemma execFrom_hit (re : RegExp) (input : JsString) (e : nat) (caps : Captures) :
  matchParts re 0%nat input [] = Some (e, caps) ->
  execFrom re 0%nat input = Some (firstn (e - 0) input :: caps).
Proof. intros H. destruct input; cbn [execFrom]; now rewrite H. Qed.

Lemma exec_marked (k1 : CodeUnit) (r1 : JsString) (l : list Segment) :
  kanjiRegex_test k1 = true -> furiganaText r1 -> Forall goodSegment l ->
  exec (bodyRegex (k1 :: List.map seg_kanji l)) (markedText r1 l)
  = Some (markedText r1 l
            :: r1 :: flat_map (fun e => [[seg_mark e]; seg_reading e]) l).
Proof.
  intros K1 R1 Hl. unfold bodyRegex.
  rewrite (bodyParts_kanji_cons other k1 _ K1), (bodyParts_kanji_run l Hl).
  cbn [CharType_eqb app]. unfold exec.
  erewrite execFrom_hit;
    [|cbn [matchParts]; exact (matchParts_marked l Hl r1 0%nat [] R1)].
  cbn [Nat.add app]. now rewrite Nat.sub_0_r, firstn_all.
Qed.

Lemma matchFurigana_loop_marked (m : list JsString) (l : list Segment) :
  Forall goodSegment l ->
  forall st b top,
    lastType st = kanji ->
    curBodyPart st = b ->
    curToptextPart st = JStr top ->
    skipn (matchIndex st) m
    = flat_map (fun e => [[seg_mark e]; seg_reading e]) l ->
    result (matchFurigana_loop m (List.map seg_kanji l) st)
    ++ [(curBodyPart (matchFurigana_loop m (List.map seg_kanji l) st),
         curToptextPart (matchFurigana_loop m (List.map seg_kanji l) st))]
    = result st ++ markedPairs b top l.
Proof.
  induction 1 as [|e l (Ke & Me & Re) _ IH]; intros st b top Hlt Hb Htop Hskip.
  - cbn. now rewrite Hb, Htop.
  - cbn [flat_map app] in Hskip.
    apply skipn_cons_index in Hskip. destruct Hskip as [Ei Es].
    assert (Es' := Es). apply skipn_cons_index in Es'. destruct Es' as [Ei' Es'].
    cbn [List.map matchFurigana_loop markedPairs].
    unfold matchFurigana_step at 1 2 3. rewrite Ke, Hlt.
    cbn [CharType_eqb orb]. rewrite Ei, Ei', Hb, Htop.
    destruct Me as [Em | Em]; rewrite Em.
    + change (strictEqStr (JStr [cPlus]) (js "+") || strictEqStr (JStr [cPlus]) [])
        with true.
      change (cPlus =? cPlus) with true. cbv iota.
      rewrite (IH _ (b ++ [seg_kanji e]) (top ++ seg_reading e));
        try reflexivity. exact Es'.
    + change (strictEqStr (JStr [cDot]) (js "+") || strictEqStr (JStr [cDot]) [])
        with false.
      change (cDot =? cPlus) with false. cbv iota.
      rewrite (IH _ [seg_kanji e] (seg_reading e)); try reflexivity; [|exact Es'].
      cbn [result]. now rewrite <- app_assoc.
Qed.

Lemma furigana_marked (k1 : CodeUnit) (r1 : JsString) (l : list Segment)
  (toptext : JsString) (options : FuriganaOptions) :
  kanjiRegex_test k1 = true -> furiganaText r1 -> Forall goodSegment l ->
  emphasisDotsIndicatorRegex_test toptext = false ->
  disabledRegex_test toptext = false ->
  cleanFurigana toptext options = markedText r1 l ->
  furigana (k1 :: List.map seg_kanji l) toptext options
  = Normal (markedPairs [k1] r1 l).
Proof.
  intros K1 R1 Hl He Hd Hc.
  unfold furigana. rewrite He, matchFurigana_unfold, Hd, Hc.
  rewrite (exec_marked k1 r1 l K1 R1 Hl). f_equal.
  unfold matchedPairs. cbn [matchFurigana_loop].
  match goal with
  | |- context [matchFurigana_step ?mm k1 initialState] => set (m := mm)
  end.
  assert (E : matchFurigana_step m k1 initialState
              = {| result := [];
                   curBodyPart := [k1];
                   curToptextPart := JStr r1;
                   matchIndex := 2;
                   lastType := kanji |}).
  { unfold matchFurigana_step. rewrite K1. reflexivity. }
  rewrite E.
  exact (matchFurigana_loop_marked m l Hl
           {| result := [];
              curBodyPart := [k1];
              curToptextPart := JStr r1;
              matchIndex := 2;
              lastType := kanji |}
           [k1] r1 eq_refl eq_refl eq_refl eq_refl).
Qed.

(** X12. For a body of logographic characters and a reading whose cleaned
    form gives every character a reading that is not empty, with a [.] or
    a [+] before the reading of each character but the first, the pattern
    matches and the marks decide the pairs: [+] joins the character and
    its reading to the pair before, [.] starts a new pair. *)
Theorem marked_reading_pairs (k1 : CodeUnit) (r1 : JsString)
  (l : list Segment) (toptext : JsString) (options : FuriganaOptions) :
  kanjiRegex_test k1 = true ->
  r1 <> [] /\ Forall (fun c => notPlusOrDot c = true) r1 ->
  Forall (fun e =>
            kanjiRegex_test (seg_kanji e) = true
            /\ (seg_mark e = cPlus \/ seg_mark e = cDot)
            /\ seg_reading e <> []
            /\ Forall (fun c => notPlusOrDot c = true) (seg_reading e)) l ->
  emphasisDotsIndicatorRegex_test toptext = false ->
  disabledRegex_test toptext = false ->
  cleanFurigana toptext options = markedText r1 l ->
  furigana (k1 :: List.map seg_kanji l) toptext options
  = Normal (markedPairs [k1] r1 l).
Proof.
  intros K1 R1 Hl He Hd Hc.
  apply furigana_marked; assumption.
Qed.

Lemma marked_reading_pairs_witness :
  furigana [0x53ef; 0x611b; 0x72ac]
           [0x304b; 0xff0b; 0x308f; 0x3044; 0x30fb; 0x3044; 0x306c]
           new_FuriganaOptions
  = Normal [([0x53ef; 0x611b], JStr [0x304b; 0x308f; 0x3044]);
            ([0x72ac], JStr [0x3044; 0x306c])].
Proof.
  apply (marked_reading_pairs 0x53ef [0x304b]
           [ {| seg_kanji := 0x611b; seg_mark := cPlus;
                seg_reading := [0x308f; 0x3044] |};
             {| seg_kanji := 0x72ac; seg_mark := cDot;
                seg_reading := [0x3044; 0x306c] |} ]
           [0x304b; 0xff0b; 0x308f; 0x3044; 0x30fb; 0x3044; 0x306c]
           new_FuriganaOptions).
  - reflexivity.
  - split; [discriminate | repeat constructor].
  - constructor; [|constructor; [|constructor]].
    + split; [reflexivity|]. split; [left; reflexivity|].
      split; [discriminate | repeat constructor].
    + split; [reflexivity|]. split; [right; reflexivity|].
      split; [discriminate | repeat constructor].
  - reflexivity.
  - reflexivity.
  - vm_compute; reflexivity.
Defined.

Lemma markedPairs_dots (l : list Segment) :
  Forall (fun e => seg_mark e = cDot) l ->
  forall b r,
    markedPairs b r l
    = (b, JStr r)
        :: List.map (fun e => ([seg_kanji e], JStr (seg_reading e))) l.
Proof.
  induction 1 as [|e l Me _ IH]; intros b r; [reflexivity|].
  cbn [markedPairs List.map]. rewrite Me.
  change (cDot =? cPlus) with false. cbv iota. now rewrite IH.
Qed.

(** X13. In particular, when the cleaned reading puts a [.] between the
    non-empty readings of all the characters of a body of logographic
    characters, the result is one pair per character, each with its own
    reading. *)
Theorem dotted_reading_pairs (k1 : CodeUnit) (r1 : JsString)
  (l : list Segment) (toptext : JsString) (options : FuriganaOptions) :
  kanjiRegex_test k1 = true ->
  r1 <> [] /\ Forall (fun c => notPlusOrDot c = true) r1 ->
  Forall (fun e =>
            kanjiRegex_test (seg_kanji e) = true
            /\ seg_mark e = cDot
            /\ seg_reading e <> []
            /\ Forall (fun c => notPlusOrDot c = true) (seg_reading e)) l ->
  emphasisDotsIndicatorRegex_test toptext = false ->
  disabledRegex_test toptext = false ->
  cleanFurigana toptext options = markedText r1 l ->
  furigana (k1 :: List.map seg_kanji l) toptext options
  = Normal (([k1], JStr r1)
              :: List.map (fun e => ([seg_kanji e], JStr (seg_reading e))) l).
Proof.
  intros K1 R1 Hl He Hd Hc.
  rewrite <- (markedPairs_dots l).
  - apply furigana_marked; try assumption.
    eapply Forall_impl; [|exact Hl].
    intros e (A & B & C & D). repeat split; auto.
  - eapply Forall_impl; [|exact Hl]. intros e (_ & B & _). exact B.
Qed.

Lemma dotted_reading_pairs_witness :
  furigana [0x53ef; 0x611b] [0x304b; 0x30fb; 0x308f; 0x3044] new_FuriganaOptions
  = Normal [([0x53ef], JStr [0x304b]); ([0x611b], JStr [0x308f; 0x3044])].
Proof.
  apply (dotted_reading_pairs 0x53ef [0x304b]
           [ {| seg_kanji := 0x611b; seg_mark := cDot;
                seg_reading := [0x308f; 0x3044] |} ]
           [0x304b; 0x30fb; 0x308f; 0x3044] new_FuriganaOptions).
  - reflexivity.
  - split; [discriminate | repeat constructor].
  - repeat constructor; discriminate.
  - reflexivity.
  - reflexivity.
  - vm_compute; reflexivity.
Defined.

(** ** Readings the pattern cannot match *)

Lemma exec_readingText (body input : JsString) (m : list JsString) :
  exec (bodyRegex body) input = Some m ->
  exists caps,
    Forall2 capOK (bodyGroups false body) caps
    /\ List.filter notPlusOrDot input = readingText false body caps
    /\ Parses (bodyRegex body) input caps.
Proof.
  intros H.
  destruct (exec_bodyRegex_captures body input m H) as (whole & caps & E & Hcaps).
  destruct (exec_bodyRegex_parses body input m H) as (caps' & E' & HP).
  rewrite E in E'. inversion E'; subst whole caps'.
  exists caps. repeat split; [exact Hcaps | | exact HP].
  now apply Parses_bodyRegex_readingText.
Qed.

Lemma readingText_length (body : JsString) :
  forall a caps,
    Forall2 capOK (bodyGroups a body) caps ->
    (List.length (List.filter (fun c => kanjiRegex_test c || kanaRegex_test c) body)
     <= List.length (readingText a body caps))%nat.
Proof.
  induction body as [|c body IH]; intros a caps H; [apply le_n|].
  cbn [bodyGroups readingText List.filter] in *.
  destruct (kanjiRegex_test c); cbn [orb].
  - destruct a; cbn [app] in H.
    + inversion H as [|? x ? t _ Ht]; subst.
      inversion Ht as [|? y ? t' Hy Ht']; subst.
      cbn [List.tl]. rewrite length_app. cbn [List.length].
      specialize (IH true t' Ht'). destruct Hy as [Hne _].
      destruct y; [now contradiction Hne | cbn [List.length]; lia].
    + inversion H as [|? y ? t' Hy Ht']; subst.
      rewrite length_app. cbn [List.length].
      specialize (IH true t' Ht'). destruct Hy as [Hne _].
      destruct y; [now contradiction Hne | cbn [List.length]; lia].
  - specialize (IH false caps H).
    destruct (kanaRegex_test c); cbn [app List.length]; lia.
Qed.










(** X17. The empty reading gives, for every body, the one pair of the body
    and the empty string. *)
Theorem empty_reading_pair (body : JsString) (options : FuriganaOptions) :
  furigana body [] options = Normal [(body, JStr [])].
Proof.
  unfold furigana. cbn [emphasisDotsIndicatorRegex_test].
  rewrite matchFurigana_unfold. cbn [disabledRegex_test].
  destruct (exec _ _) as [m|] eqn:E; [|reflexivity].
  apply exec_readingText in E. destruct E as (caps & Hcaps & Hr & _).
  assert (L := readingText_length body false caps Hcaps).
  rewrite <- Hr in L. cbn in L.
  rewrite matchedPairs_noKanji; [reflexivity|].
  apply Nat.le_0_r, length_zero_iff_nil in L.
  clear - L. induction body as [|c body IH]; [constructor|].
  cbn [List.filter] in L.
  destruct (kanjiRegex_test c) eqn:Kc; cbn [orb] in L; [discriminate|].
  constructor; [exact Kc|]. apply IH.
  destruct (kanaRegex_test c); [discriminate | exact L].
Qed.

(** ** Runs without logographic characters are not split *)

Lemma noAdjacentPlain_snoc (l : list Pair) (p q : Pair) :
  noAdjacentPlain (l ++ [p]) ->
  kanjiStart p || kanjiStart q = true ->
  noAdjacentPlain (l ++ [p; q]).
Proof.
  induction l as [|a l IH]; intros H Hpq.
  - cbn. now split.
  - destruct l as [|b l].
    + cbn in *. destruct H as [Hab _]. repeat split; assumption.
    + cbn [app noAdjacentPlain] in *. destruct H as [Hab H].
      split; [exact Hab | now apply IH].
Qed.

Lemma noAdjacentPlain_last (l : list Pair) (p p' : Pair) :
  noAdjacentPlain (l ++ [p]) ->
  kanjiStart p' = kanjiStart p ->
  noAdjacentPlain (l ++ [p']).
Proof.
  induction l as [|a l IH]; intros H Hp.
  - exact I.
  - destruct l as [|b l].
    + cbn in *. rewrite Hp. exact H.
    + cbn [app noAdjacentPlain] in *. destruct H as [Hab H].
      split; [exact Hab | now apply IH].
Qed.

Lemma noAdjacentPlain_split (l : list Pair) :
  noAdjacentPlain l ->
  forall l1 p q l2,
    l = l1 ++ p :: q :: l2 -> kanjiStart p || kanjiStart q = true.
Proof.
  intros H l1. revert l H.
  induction l1 as [|a l1 IH]; intros l H p q l2 ->.
  - cbn in H. exact (proj1 H).
  - cbn [app] in H.
    assert (H' : noAdjacentPlain (l1 ++ p :: q :: l2))
      by (destruct l1; cbn [app noAdjacentPlain] in H; exact (proj2 H)).
    exact (IH (l1 ++ p :: q :: l2) H' p q l2 eq_refl).
Qed.

Lemma kanjiStart_snoc (b : JsString) (v v' : JsVal) (c : CodeUnit) :
  b <> [] -> kanjiStart (b ++ [c], v') = kanjiStart (b, v).
Proof. intros H. destruct b; [now contradiction H | reflexivity]. Qed.

Lemma matchFurigana_step_alternating (m : list JsString) (c : CodeUnit)
  (st : LoopState) :
  Alternating st -> Alternating (matchFurigana_step m c st).
Proof.
  intros [Hp Hk Ho Hf]. unfold matchFurigana_step.
  destruct (kanjiRegex_test c) eqn:Kc.
  - assert (K1 : forall v, kanjiStart ([c], v) = true)
      by (intros v; unfold kanjiStart; cbn; exact Kc).
    destruct (lastType st) eqn:Lt; cbn [CharType_eqb orb].
    + constructor; cbn [result curBodyPart curToptextPart lastType];
        try (intros; first [apply K1 | discriminate | congruence]).
      rewrite JsString_eqb_nil.
      destruct (curBodyPart st) as [|x t] eqn:Eb; cbn [negb].
      * rewrite (Hf eq_refl). exact I.
      * rewrite <- app_assoc. cbn [app].
        apply noAdjacentPlain_snoc; [exact Hp|]. rewrite K1. apply orb_true_r.
    + assert (Hcur := Hk eq_refl).
      destruct (strictEqStr _ _ || strictEqStr _ _);
        constructor; cbn [result curBodyPart curToptextPart lastType];
        try (intros; first [apply K1 | discriminate | congruence]).
      * eapply noAdjacentPlain_last; [exact Hp|].
        apply kanjiStart_snoc. intros E. rewrite E in Hcur. discriminate.
      * intros _. rewrite <- Hcur. apply kanjiStart_snoc.
        intros E. rewrite E in Hcur. discriminate.
      * intros E. destruct (curBodyPart st); discriminate.
      * rewrite <- app_assoc. cbn [app].
        apply noAdjacentPlain_snoc; [exact Hp|]. rewrite K1. apply orb_true_r.
    + constructor; cbn [result curBodyPart curToptextPart lastType];
        try (intros; first [apply K1 | discriminate | congruence]).
      rewrite JsString_eqb_nil.
      destruct (curBodyPart st) as [|x t] eqn:Eb; cbn [negb].
      * rewrite (Hf eq_refl). exact I.
      * rewrite <- app_assoc. cbn [app].
        apply noAdjacentPlain_snoc; [exact Hp|]. rewrite K1. apply orb_true_r.
  - assert (K0 : forall v, kanjiStart ([c], v) = false)
      by (intros v; unfold kanjiStart; cbn; exact Kc).
    destruct (CharType_eqb (lastType st) kanji) eqn:Lk; cbn [negb].
    + assert (Lt : lastType st = kanji)
        by (destruct (lastType st); try discriminate; reflexivity).
      constructor; cbn [result curBodyPart curToptextPart lastType].
      * rewrite <- app_assoc. cbn [app].
        apply noAdjacentPlain_snoc; [exact Hp|]. now rewrite (Hk Lt).
      * destruct (kanaRegex_test c); discriminate.
      * intros _. apply K0.
      * discriminate.
    + assert (Nk : lastType st <> kanji).
      { intros E. rewrite E in Lk. discriminate. }
      assert (Hcur := Ho Nk).
      assert (E : kanjiStart (curBodyPart st ++ [c], curToptextPart st) = false).
      { destruct (curBodyPart st) as [|x t] eqn:Eb; [apply K0 | exact Hcur]. }
      constructor; cbn [result curBodyPart curToptextPart lastType].
      * eapply noAdjacentPlain_last; [exact Hp|].
        exact (eq_trans E (eq_sym Hcur)).
      * intros L. now contradiction Nk.
      * intros _. exact E.
      * intros N. now apply snoc_not_nil in N.
Qed.

Lemma matchFurigana_loop_alternating (m : list JsString) (body : JsString) :
  forall st, Alternating st -> Alternating (matchFurigana_loop m body st).
Proof.
  induction body as [|c body IH]; intros st H; [exact H|].
  cbn [matchFurigana_loop]. now apply IH, matchFurigana_step_alternating.
Qed.

Lemma initialState_alternating : Alternating initialState.
Proof. constructor; cbn; try reflexivity; discriminate. Qed.

(** X18. When the pattern of the body matches, a run of characters that
    are not logographic is never split: of two pairs that follow each
    other in the result, at least one starts with a logographic
    character. *)
Theorem plain_runs_not_split (body toptext : JsString)
  (options : FuriganaOptions) (re : RegExp) (m : list JsString) :
  emphasisDotsIndicatorRegex_test toptext = false ->
  disabledRegex_test toptext = false ->
  bodyToRegex body = Normal (Some re) ->
  exec re (cleanFurigana toptext options) = Some m ->
  exists pairs,
    furigana body toptext options = Normal pairs
    /\ forall l1 p q l2,
         pairs = l1 ++ p :: q :: l2 ->
         kanjiStart p = true \/ kanjiStart q = true.
Proof.
  intros He Hd Hre Hm.
  rewrite bodyToRegex_value in Hre. inversion Hre; subst re.
  exists (matchedPairs m body). split.
  - unfold furigana. now rewrite He, matchFurigana_unfold, Hd, Hm.
  - intros l1 p q l2 E. apply orb_true_iff.
    refine (noAdjacentPlain_split _ _ l1 p q l2 E).
    unfold matchedPairs.
    apply (alt_pairs _ (matchFurigana_loop_alternating m body initialState
                          initialState_alternating)).
Qed.

Lemma plain_runs_not_split_witness :
  exists pairs,
    furigana Examples.kawaii_inu Examples.ka_wai_i_inu new_FuriganaOptions
    = Normal pairs
    /\ forall l1 p q l2,
         pairs = l1 ++ p :: q :: l2 ->
         kanjiStart p = true \/ kanjiStart q = true.
Proof.
  apply (plain_runs_not_split Examples.kawaii_inu Examples.ka_wai_i_inu
           new_FuriganaOptions (bodyRegex Examples.kawaii_inu)
           [ [0x304b; cDot; 0x308f; 0x3044; cDot; 0x3044; cDot; 0x3044; 0x306c];
             Examples.ka; [cDot]; Examples.wai; Examples.inu ]).
  - reflexivity.
  - reflexivity.
  - vm_compute; reflexivity.
  - vm_compute; reflexivity.
Defined.
